(** * Knowledge Hub server: the versioned document store

    A shallow embedding of the document controller
    ([controllers/document.controller.js]), of the Mongoose models
    ([models/Document.js], [models/Activity.js]) and of the AI wrappers
    ([utils/gemini.js]), followed by the properties of the create / update /
    delete / restore pipeline, of the bounded version ledger and of the
    activity log. *)

From Stdlib Require Import String Ascii DecimalString.
From stdpp Require Import base numbers list option sorting.

Local Open Scope N_scope.

(** ** JavaScript values *)

(** A JavaScript string is a sequence of UTF-16 code units; [length] and
    [slice] count code units. *)
Definition jsstring : Type := list N.

(** ASCII literals, for messages and examples. *)
Definition str (s : string) : jsstring :=
  (λ a, N_of_ascii a) <$> list_ascii_of_string s.

(** A number inside a template literal. *)
Definition decimal (n : nat) : jsstring :=
  str (NilEmpty.string_of_uint (Nat.to_uint n)).

(** [s.slice(0, n)] *)
Definition slice_to {A} (n : nat) (l : list A) : list A := take n l.

(** [a.slice(-n)]: the last [n] elements (all of them when there are fewer). *)
Definition slice_last {A} (n : nat) (l : list A) : list A :=
  drop (length l - n)%nat l.

(** [String.prototype.trim] strips WhiteSpace and LineTerminator code points,
    all of which are single code units. *)
Definition isWhiteSpace (c : N) : bool :=
  (bool_decide (9 ≤ c ≤ 13)) || (c =? 32) || (c =? 160) || (c =? 5760)
  || (bool_decide (8192 ≤ c ≤ 8202)) || (c =? 8232) || (c =? 8233)
  || (c =? 8239) || (c =? 8287) || (c =? 12288) || (c =? 65279).

Fixpoint trimStart (s : jsstring) : jsstring :=
  match s with
  | c :: s' => if isWhiteSpace c then trimStart s' else s
  | [] => []
  end.

Definition trim (s : jsstring) : jsstring :=
  reverse (trimStart (reverse (trimStart s))).

(** [Array.from(new Set(xs))]: the distinct elements in order of first
    insertion. *)
Fixpoint setFrom (seen xs : list jsstring) : list jsstring :=
  match xs with
  | [] => []
  | x :: xs' =>
      if bool_decide (x ∈ seen) then setFrom seen xs'
      else x :: setFrom (x :: seen) xs'
  end.

Definition arrayFromSet (xs : list jsstring) : list jsstring := setFrom [] xs.

(** ** utils/gemini.js *)

Module Gemini.

(** The vector of [embedText]; the store never looks inside it. *)
Definition Embedding : Type := list N.

(** The generative client. A call that throws or rejects answers [None]. *)
Record Client := {
  generateContent : jsstring → option jsstring;
  embedContent : jsstring → option Embedding
}.

(** What the wrappers see of the outside world: [genAI] is [null] ([None])
    when the library or the API key is missing. The two tag functions stand
    for the word ranking of [naive()] and for the parsing of the model's
    answer, both before the final [.slice(0, count)]; [hashVector] is the
    deterministic fallback embedding. *)
Record World := {
  genAI : option Client;
  naiveRanking : jsstring → list jsstring;
  parseTags : jsstring → list jsstring;
  hashVector : jsstring → Embedding
}.

Definition isReady (w : World) : bool := bool_decide (is_Some (genAI w)).

(** The character U+2026. *)
Definition ellipsis : N := 8230.

(** [text.length > 220 ? text.slice(0, 200) + '…' : text] *)
Definition truncated (text : jsstring) : jsstring :=
  if bool_decide (220 < length text)%nat
  then slice_to 200 text ++ [ellipsis]
  else text.

Definition summaryPrompt (text : jsstring) : jsstring :=
  str "Summarize the following document in 3-5 bullet points:"
    ++ [10; 10] ++ text.

Definition summarizeText (w : World) (text : jsstring) : jsstring :=
  match genAI w with
  | None => truncated text
  | Some client =>
      match generateContent client (summaryPrompt text) with
      | Some answer => answer
      | None => truncated text
      end
  end.

Definition tagsPrompt (text : jsstring) (count : nat) : jsstring :=
  str "Read the content and return " ++ decimal count
    ++ str " concise single-word or short-phrase tags as a JSON array of strings only. Content:"
    ++ [10; 10] ++ text.

(** Every return path of [generateTags] ends in [.slice(0, count)]. *)
Definition generateTags (w : World) (text : jsstring) (count : nat)
  : list jsstring :=
  match genAI w with
  | None => slice_to count (naiveRanking w text)
  | Some client =>
      match generateContent client (tagsPrompt text count) with
      | Some txt => slice_to count (parseTags w txt)
      | None => slice_to count (naiveRanking w text)
      end
  end.

(** [embedText] has no [try]: with a client, a failing call rejects. *)
Definition embedText (w : World) (text : jsstring) : option Embedding :=
  match genAI w with
  | None => Some (hashVector w text)
  | Some client => embedContent client text
  end.

(** The collaborator is unavailable, or its call fails on this text. *)
Definition summaryDegraded (w : World) (text : jsstring) : Prop :=
  match genAI w with
  | None => True
  | Some client => generateContent client (summaryPrompt text) = None
  end.

End Gemini.

(** ** models/Document.js and models/Activity.js *)

Definition ObjectId : Type := N.

Module User.
Record t := mk { _id : ObjectId; role : jsstring }.
End User.

(** The four change flags carried by a version and by an activity. *)
Module Changes.
Record t := mk { title : bool; content : bool; tags : bool; summary : bool }.

#[global] Instance eq_dec : EqDecision t.
Proof. solve_decision. Defined.

Definition all : t := mk true true true true.

(** [Object.values(changes).some(change => change)] *)
Definition some (c : t) : bool := title c || content c || tags c || summary c.
End Changes.

(** The [{title, content, summary, tags}] objects kept as activity metadata. *)
Module Snapshot.
Record t := mk {
  title : jsstring; content : jsstring; summary : jsstring;
  tags : list jsstring
}.

#[global] Instance eq_dec : EqDecision t.
Proof. solve_decision. Defined.
End Snapshot.

(** The [diff] object of a version. *)
Module Diff.
(** One part of the answer of [diff.diffWords]. *)
Record Part := mkPart { value : jsstring; added : bool; removed : bool }.

#[global] Instance part_eq_dec : EqDecision Part.
Proof. solve_decision. Defined.

Record t := mk {
  title : option (list Part);
  content : option (list Part);
  tags : option (list jsstring * list jsstring);
  summary : option (jsstring * jsstring)
}.

#[global] Instance eq_dec : EqDecision t.
Proof. solve_decision. Defined.
End Diff.

(** [VersionSchema]. [diff = None] is an entry whose [diff] was never
    assigned (the stored entry then has the schema's empty defaults). The
    timestamps of ledger entries play no role in the controller and are left
    out. *)
Module Version.
Record t := mk {
  versionNumber : N;
  title : jsstring;
  content : jsstring;
  summary : jsstring;
  tags : list jsstring;
  editedBy : ObjectId;
  changes : Changes.t;
  diff : option Diff.t
}.

#[global] Instance eq_dec : EqDecision t.
Proof. solve_decision. Defined.

Definition set_diff (d : option Diff.t) (v : t) : t :=
  mk (versionNumber v) (title v) (content v) (summary v) (tags v)
     (editedBy v) (changes v) d.

(** [{title, content, summary, tags}] of an entry. *)
Definition snapshot (v : t) : Snapshot.t :=
  Snapshot.mk (title v) (content v) (summary v) (tags v).
End Version.

(** [DocumentSchema]. *)
Module Document.
Record t := mk {
  _id : ObjectId;
  title : jsstring;
  content : jsstring;
  summary : jsstring;
  tags : list jsstring;
  embedding : Gemini.Embedding;
  currentVersion : N;
  createdBy : ObjectId;
  lastUpdatedBy : option ObjectId;
  versions : list Version.t;
  isDeleted : bool;
  createdAt : N;
  updatedAt : N
}.

#[global] Instance eq_dec : EqDecision t.
Proof. solve_decision. Defined.

(** Assignments to a path of the document. [title] has [trim: true]. *)
Definition set_title (x : jsstring) (d : t) : t :=
  mk (_id d) (trim x) (content d) (summary d) (tags d) (embedding d)
     (currentVersion d) (createdBy d) (lastUpdatedBy d) (versions d)
     (isDeleted d) (createdAt d) (updatedAt d).
Definition set_content (x : jsstring) (d : t) : t :=
  mk (_id d) (title d) x (summary d) (tags d) (embedding d)
     (currentVersion d) (createdBy d) (lastUpdatedBy d) (versions d)
     (isDeleted d) (createdAt d) (updatedAt d).
Definition set_summary (x : jsstring) (d : t) : t :=
  mk (_id d) (title d) (content d) x (tags d) (embedding d)
     (currentVersion d) (createdBy d) (lastUpdatedBy d) (versions d)
     (isDeleted d) (createdAt d) (updatedAt d).
Definition set_tags (x : list jsstring) (d : t) : t :=
  mk (_id d) (title d) (content d) (summary d) x (embedding d)
     (currentVersion d) (createdBy d) (lastUpdatedBy d) (versions d)
     (isDeleted d) (createdAt d) (updatedAt d).
Definition set_embedding (x : Gemini.Embedding) (d : t) : t :=
  mk (_id d) (title d) (content d) (summary d) (tags d) x
     (currentVersion d) (createdBy d) (lastUpdatedBy d) (versions d)
     (isDeleted d) (createdAt d) (updatedAt d).
Definition set_currentVersion (x : N) (d : t) : t :=
  mk (_id d) (title d) (content d) (summary d) (tags d) (embedding d)
     x (createdBy d) (lastUpdatedBy d) (versions d)
     (isDeleted d) (createdAt d) (updatedAt d).
Definition set_lastUpdatedBy (x : ObjectId) (d : t) : t :=
  mk (_id d) (title d) (content d) (summary d) (tags d) (embedding d)
     (currentVersion d) (createdBy d) (Some x) (versions d)
     (isDeleted d) (createdAt d) (updatedAt d).
Definition set_versions (x : list Version.t) (d : t) : t :=
  mk (_id d) (title d) (content d) (summary d) (tags d) (embedding d)
     (currentVersion d) (createdBy d) (lastUpdatedBy d) x
     (isDeleted d) (createdAt d) (updatedAt d).
Definition set_isDeleted (x : bool) (d : t) : t :=
  mk (_id d) (title d) (content d) (summary d) (tags d) (embedding d)
     (currentVersion d) (createdBy d) (lastUpdatedBy d) (versions d)
     x (createdAt d) (updatedAt d).
Definition set_timestamps (c u : N) (d : t) : t :=
  mk (_id d) (title d) (content d) (summary d) (tags d) (embedding d)
     (currentVersion d) (createdBy d) (lastUpdatedBy d) (versions d)
     (isDeleted d) c u.

(** [new Document({title, content, summary, tags, embedding, createdBy,
    lastUpdatedBy})]: the other paths take their schema defaults. *)
Definition new (id : ObjectId) (title content summary : jsstring)
    (tags : list jsstring) (embedding : Gemini.Embedding)
    (createdBy lastUpdatedBy : ObjectId) : t :=
  mk id (trim title) content summary tags embedding 1 createdBy
     (Some lastUpdatedBy) [] false 0 0.

Definition snapshot (d : t) : Snapshot.t :=
  Snapshot.mk (title d) (content d) (summary d) (tags d).

(** The [required] validators of the top-level paths. *)
Definition valid (d : t) : bool :=
  negb (bool_decide (title d = [])) && negb (bool_decide (content d = [])).

(** [DocumentSchema.pre('save')] *)
Definition preSave (isNew : bool) (this : t) : t :=
  if isNew then
    set_versions
      (versions this ++
         [Version.mk 1 (title this) (content this) (summary this)
            (tags this) (createdBy this) Changes.all None])
      this
  else this.
End Document.

(** [ActivitySchema]. *)
Module Activity.
Inductive Action := created | updated | deleted | version_created.

#[global] Instance action_eq_dec : EqDecision Action.
Proof. solve_decision. Defined.

Record t := mk {
  action : Action;
  document : ObjectId;
  documentTitle : jsstring;
  versionNumber : N;
  user : ObjectId;
  changes : Changes.t;
  previousVersion : option Snapshot.t;
  newVersion : option Snapshot.t;
  createdAt : N
}.

#[global] Instance eq_dec : EqDecision t.
Proof. solve_decision. Defined.

(** [documentTitle] is [required]. *)
Definition valid (a : t) : bool := negb (bool_decide (documentTitle a = [])).
End Activity.

(** ** The database, the session and the environment of a request *)

(** The two collections, each in insertion order. *)
Record DB := {
  documents : list Document.t;
  activities : list Activity.t
}.

(** The document of the collection with a given [_id]. *)
Definition lookup (id : ObjectId) (docs : list Document.t)
  : option Document.t :=
  List.find (λ d, bool_decide (Document._id d = id)) docs.

(** Writing a document: it replaces the stored one with the same [_id], or
    is inserted at the end. *)
Definition write (doc : Document.t) (docs : list Document.t)
  : list Document.t :=
  match lookup (Document._id doc) docs with
  | Some _ =>
      (λ d, if bool_decide (Document._id d = Document._id doc) then doc else d)
        <$> docs
  | None => docs ++ [doc]
  end.

(** A session: the database together with the write a transaction has not
    yet committed. The controller writes one document per request; a document
    fetched with [.session(session)] keeps the session for its later [save()],
    so every document write of a request goes to [pending]. *)
Record Session := {
  db : DB;
  pending : option Document.t
}.

Inductive Error := TypeError | ValidationError | MongoError | Rejected.

(** The three places that write a document. *)
Inductive SaveSite := InCreateVersion | InSoftDelete | InController.

(** What a request does not control: the AI wrappers' world, the [diff]
    package, the regular expressions of the database, the clock, the next
    ObjectId, and which database writes fail. *)
Record Env := {
  world : Gemini.World;
  diffWords : jsstring → jsstring → list Diff.Part;
  regexTest : jsstring → jsstring → bool;
  now : N;
  newObjectId : ObjectId;
  activityWriteFails : bool;
  saveFails : SaveSite → bool;
  commitFails : bool
}.

Definition withActivityWrite (fails : bool) (env : Env) : Env :=
  {| world := world env; diffWords := diffWords env;
     regexTest := regexTest env; now := now env;
     newObjectId := newObjectId env; activityWriteFails := fails;
     saveFails := saveFails env; commitFails := commitFails env |}.


(** Code that runs inside a session and may throw. *)
Definition Tx (A : Type) : Type := Session → (Error + A) * Session.

Definition ret {A} (a : A) : Tx A := λ s, (inr a, s).

Definition throw {A} (e : Error) : Tx A := λ s, (inl e, s).

Definition bind {A B} (c : Tx A) (k : A → Tx B) : Tx B :=
  λ s, match c s with
       | (inr a, s') => k a s'
       | (inl e, s') => (inl e, s')
       end.

Definition tryCatch {A} (c : Tx A) (handler : Error → Tx A) : Tx A :=
  λ s, match c s with
       | (inl e, s') => handler e s'
       | r => r
       end.

Notation "x <- c ;; k" := (bind c (λ x, k))
  (at level 100, c at next level, right associativity).
Notation "c ;; k" := (bind c (λ _, k))
  (at level 100, right associativity).

(** What a handler sends back: [res.status(status).json(...)]. *)
Inductive Json :=
| Message (message : jsstring)
| DocumentJson (doc : option Document.t)
| DocumentsJson (docs : list Document.t)
| TagsJson (tags : list jsstring)
| SummaryJson (summary : jsstring)
| RestoredJson (message : jsstring) (document : option Document.t).

Record Response := { status : N; json : Json }.

(** A handler body with its outermost [catch]; ending the session drops
    whatever the transaction has not committed. *)
Definition handle (body : Tx Response) (onError : Error → Response)
  : DB → Response * DB :=
  λ d, match body {| db := d; pending := None |} with
       | (inr r, s) => (r, db s)
       | (inl e, s) => (onError e, db s)
       end.

(** The body of a create or update request: each of [title], [content] and
    [tags] is absent ([undefined]) or present; [tags], when present, is an
    array of strings. *)
Module Body.
Record t := mk {
  title : option jsstring;
  content : option jsstring;
  tags : option (list jsstring)
}.
End Body.

(** The query string of the listing, numbers already read by [Number]. *)
Module Query.
Record t := mk {
  mine : bool;
  tag : option jsstring;
  tags : option jsstring;
  q : option jsstring;
  limit : nat;
  page : nat
}.

(** No parameter given: [limit = 20], [page = 1]. *)
Definition default : t := mk false None None None 20 1.
End Query.

(** A string is truthy when it is present and not empty. *)
Definition truthy (s : option jsstring) : option jsstring :=
  match s with
  | Some [] => None
  | other => other
  end.

(** [s.split(sep)] for a one-character separator. *)
Fixpoint split (sep : N) (s : jsstring) : list jsstring :=
  match s with
  | [] => [[]]
  | c :: s' =>
      if c =? sep then [] :: split sep s'
      else match split sep s' with
           | w :: ws => (c :: w) :: ws
           | [] => [[c]]
           end
  end.

(** [`${a}\n${b}`] *)
Definition lines (a b : jsstring) : jsstring := a ++ [10] ++ b.

(** [Array.from(new Set([...a, ...b])).slice(0, 10)] *)
Definition mergeTags (a b : list jsstring) : list jsstring :=
  slice_to 10 (arrayFromSet (a ++ b)).

Section Controller.

Variable env : Env.

(** *** Database primitives *)

Definition findById (id : ObjectId) : Tx (option Document.t) :=
  λ s, (inr (lookup id (documents (db s))), s).

(** [doc.save()] within the session: validation, then the [pre('save')]
    hook, then the write. A new document is inserted (a duplicate [_id] is
    refused); a loaded document is written, with a fresh [updatedAt], only
    when it differs from what the session last read or wrote. *)
Definition save (site : SaveSite) (isNew : bool) (doc : Document.t)
  : Tx Document.t :=
  λ s,
    if negb (Document.valid doc) then (inl ValidationError, s)
    else
      let doc := Document.preSave isNew doc in
      if isNew then
        if saveFails env site
           || bool_decide (is_Some (lookup (Document._id doc) (documents (db s))))
        then (inl MongoError, s)
        else
          let doc := Document.set_timestamps (now env) (now env) doc in
          (inr doc, {| db := db s; pending := Some doc |})
      else
        let base :=
          match pending s with
          | Some p => Some p
          | None => lookup (Document._id doc) (documents (db s))
          end in
        if bool_decide (base = Some doc) then (inr doc, s)
        else if saveFails env site then (inl MongoError, s)
        else
          let doc :=
            Document.set_timestamps (Document.createdAt doc) (now env) doc in
          (inr doc, {| db := db s; pending := Some doc |}).

Definition publish (s : Session) : DB :=
  match pending s with
  | Some doc =>
      {| documents := write doc (documents (db s));
         activities := activities (db s) |}
  | None => db s
  end.

Definition commitTransaction : Tx unit :=
  λ s, if commitFails env then (inl MongoError, s)
       else (inr tt, {| db := publish s; pending := None |}).

Definition abortTransaction : Tx unit :=
  λ s, (inr tt, {| db := db s; pending := None |}).

(** [doc.save()] on a document fetched without a session: the write is
    visible at once. *)
Definition saveNow (site : SaveSite) (doc : Document.t) : Tx Document.t :=
  doc <- save site false doc ;;
  (λ s, (inr doc, {| db := publish s; pending := None |})).

(** [Activity.create(...)]: no session is passed, the record is written
    outside the transaction. *)
Definition Activity_create (a : Activity.t) : Tx unit :=
  λ s,
    if negb (Activity.valid a) then (inl ValidationError, s)
    else if activityWriteFails env then (inl MongoError, s)
    else (inr tt,
          {| db := {| documents := documents (db s);
                      activities := activities (db s) ++ [a] |};
             pending := pending s |}).

(** *** Document methods *)

(** [newVersion.diff.<path> = value]: a write through a [diff] that is
    [undefined] raises a TypeError. *)
Definition assignDiff (f : Diff.t → Diff.t) (newVersion : Version.t)
  : Tx Version.t :=
  match Version.diff newVersion with
  | None => throw TypeError
  | Some d => ret (Version.set_diff (Some (f d)) newVersion)
  end.

Definition diffParts (old new : jsstring) : list Diff.Part :=
  (λ part, Diff.mkPart (Diff.value part) (Diff.added part) (Diff.removed part))
    <$> diffWords env old new.

(** [DocumentSchema.methods.createVersion], in the order of the source:
    the counter and the editor are updated ([bumped]); the object literal
    [newVersion] is built with [versionNumber], [title], [content],
    [summary], [tags], [editedBy] and [changes], and without a [diff]
    property ([versionLiteral]); if the ledger has a last entry, a diff is
    assigned to [newVersion.diff] for each flag that is set ([computeDiffs]);
    the entry is pushed and the ledger cut to its last 10 entries
    ([pushVersion]); the document is saved. The method answers the updated
    [this] together with [newVersion]. *)
Definition bumped (user : User.t) (this : Document.t) : Document.t :=
  let this :=
    Document.set_currentVersion (Document.currentVersion this + 1) this in
  Document.set_lastUpdatedBy (User._id user) this.

Definition versionLiteral (user : User.t) (changes : Changes.t)
    (this : Document.t) : Version.t :=
  Version.mk (Document.currentVersion this) (Document.title this)
    (Document.content this) (Document.summary this) (Document.tags this)
    (User._id user)
    (Changes.mk (Changes.title changes) (Changes.content changes)
       (Changes.tags changes) (Changes.summary changes))
    None.

Definition computeDiffs (changes : Changes.t) (this : Document.t)
    (newVersion : Version.t) : Tx Version.t :=
  match last (Document.versions this) with
  | Some prevVersion =>
      newVersion <-
        (if Changes.title changes then
           assignDiff
             (λ d, Diff.mk
                     (Some (diffParts (Version.title prevVersion)
                              (Document.title this)))
                     (Diff.content d) (Diff.tags d) (Diff.summary d))
             newVersion
         else ret newVersion) ;;
      newVersion <-
        (if Changes.content changes then
           assignDiff
             (λ d, Diff.mk (Diff.title d)
                     (Some (diffParts (Version.content prevVersion)
                              (Document.content this)))
                     (Diff.tags d) (Diff.summary d))
             newVersion
         else ret newVersion) ;;
      newVersion <-
        (if Changes.tags changes then
           assignDiff
             (λ d, Diff.mk (Diff.title d) (Diff.content d)
                     (Some (Version.tags prevVersion, Document.tags this))
                     (Diff.summary d))
             newVersion
         else ret newVersion) ;;
      (if Changes.summary changes then
         assignDiff
           (λ d, Diff.mk (Diff.title d) (Diff.content d) (Diff.tags d)
                   (Some (Version.summary prevVersion,
                          Document.summary this)))
           newVersion
       else ret newVersion)
  | None => ret newVersion
  end.

Definition pushVersion (newVersion : Version.t) (this : Document.t)
  : Document.t :=
  let this :=
    Document.set_versions (Document.versions this ++ [newVersion]) this in
  if bool_decide (10 < length (Document.versions this))%nat
  then Document.set_versions (slice_last 10 (Document.versions this)) this
  else this.

Definition createVersion (user : User.t) (changes : Changes.t)
    (this : Document.t) : Tx (Document.t * Version.t) :=
  let this := bumped user this in
  newVersion <- computeDiffs changes this (versionLiteral user changes this) ;;
  let this := pushVersion newVersion this in
  this <- save InCreateVersion false this ;;
  ret (this, newVersion).

(** [DocumentSchema.methods.softDelete] *)
Definition softDelete (this : Document.t) : Tx Document.t :=
  let this := Document.set_isDeleted true this in
  save InSoftDelete false this.

(** *** controllers/document.controller.js *)

Definition canModify (user : User.t) (doc : Document.t) : bool :=
  bool_decide (User.role user = str "admin")
  || bool_decide (Document.createdBy doc = User._id user).

Definition noChanges : Changes.t := Changes.mk false false false false.

(** The record [logActivity] hands to [Activity.create];
    [versionNumber || document.currentVersion] skips a missing or zero
    number. *)
Definition activityRecord (action : Activity.Action) (document : Document.t)
    (user : User.t) (versionNumber : option N) (changes : Changes.t)
    (previousVersion newVersion : option Snapshot.t) : Activity.t :=
  Activity.mk action (Document._id document) (Document.title document)
    (match versionNumber with
     | Some n => if n =? 0 then Document.currentVersion document else n
     | None => Document.currentVersion document
     end)
    (User._id user)
    (Changes.mk (Changes.title changes) (Changes.content changes)
       (Changes.tags changes) (Changes.summary changes))
    previousVersion newVersion (now env).

(** [logActivity]: whatever [Activity.create] throws is caught and logged
    to the console. *)
Definition logActivity (action : Activity.Action) (document : Document.t)
    (user : User.t) (versionNumber : option N) (changes : Changes.t)
    (previousVersion newVersion : option Snapshot.t) : Tx unit :=
  tryCatch
    (Activity_create
       (activityRecord action document user versionNumber changes
          previousVersion newVersion))
    (λ _, ret tt).

Definition reply (status : N) (message : string) : Response :=
  {| status := status; json := Message (str message) |}.

(** [Promise.all([summarizeText(a), generateTags(b, 6), embedText(b)])] *)
Definition aiAssist (a b : jsstring)
  : Tx (jsstring * list jsstring * Gemini.Embedding) :=
  match Gemini.embedText (world env) b with
  | Some embedding =>
      ret (Gemini.summarizeText (world env) a,
           Gemini.generateTags (world env) b 6, embedding)
  | None => throw Rejected
  end.

Definition createDocument (user : User.t) (body : Body.t)
  : DB → Response * DB :=
  handle
    (match truthy (Body.title body), truthy (Body.content body) with
     | Some title, Some content =>
         ai <- aiAssist content (lines title content) ;;
         let '(summary, autoTags, embedding) := ai in
         let doc :=
           Document.new (newObjectId env) title content summary
             (match Body.tags body with
              | Some tags => tags
              | None => autoTags
              end)
             embedding (User._id user) (User._id user) in
         doc <- save InController true doc ;;
         logActivity Activity.created doc user None noChanges None None ;;
         commitTransaction ;;
         savedDoc <- findById (Document._id doc) ;;
         ret {| status := 201; json := DocumentJson savedDoc |}
     | _, _ =>
         abortTransaction ;;
         ret (reply 400 "Title and content are required")
     end)
    (λ _, reply 500 "Failed to create document").

Definition matches (user : User.t) (query : Query.t) (doc : Document.t)
  : bool :=
  (if Query.mine query
   then bool_decide (Document.createdBy doc = User._id user) else true)
  && match truthy (Query.tags query), truthy (Query.tag query) with
     | Some tags, _ =>
         existsb (λ t, bool_decide (t ∈ split 44 tags)) (Document.tags doc)
     | None, Some tag => bool_decide (tag ∈ Document.tags doc)
     | None, None => true
     end
  && match truthy (Query.q query) with
     | Some q =>
         regexTest env q (Document.title doc)
         || regexTest env q (Document.content doc)
         || existsb (regexTest env q) (Document.tags doc)
     | None => true
     end.

(** [.sort({ updatedAt: -1 })]; documents with equal [updatedAt] come in
    the order the sort leaves them. *)
Definition newer (a b : Document.t) : Prop :=
  Document.updatedAt b ≤ Document.updatedAt a.

#[local] Instance newer_dec a b : Decision (newer a b).
Proof. unfold newer. apply _. Defined.

Definition newestFirst (docs : list Document.t) : list Document.t :=
  merge_sort newer docs.

(** [getDocuments]: the filter is built from the query alone. A negative
    [skip] is refused by the database; [limit(0)] is no limit. *)
Definition getDocuments (user : User.t) (query : Query.t) (d : DB)
  : Response :=
  let found :=
    newestFirst
      (filter (λ doc, matches user query doc = true)
         (documents d)) in
  if bool_decide (Query.page query = 0%nat ∧ Query.limit query ≠ 0%nat)
  then reply 500 "Failed to fetch documents"
  else
    let skipped :=
      drop ((Query.page query - 1) * Query.limit query)%nat found in
    {| status := 200;
       json := DocumentsJson
                 (if bool_decide (Query.limit query = 0%nat) then skipped
                  else take (Query.limit query) skipped) |}.

Definition getDocumentById (id : ObjectId) (d : DB) : Response :=
  match lookup id (documents d) with
  | Some doc => {| status := 200; json := DocumentJson (Some doc) |}
  | None => reply 404 "Document not found"
  end.

(** [updateDocument], block by block. "Track changes": patch values against
    the current ones, tags through [JSON.stringify], which on arrays of
    strings is equality of the sequences. *)
Definition trackChanges (body : Body.t) (doc : Document.t) : Changes.t :=
  Changes.mk
    (match Body.title body with
     | Some title => bool_decide (title ≠ Document.title doc)
     | None => false
     end)
    (match Body.content body with
     | Some content => bool_decide (content ≠ Document.content doc)
     | None => false
     end)
    (match Body.tags body with
     | Some tags => bool_decide (tags ≠ Document.tags doc)
     | None => false
     end)
    false.

(** "Update document fields if provided" *)
Definition applyPatch (body : Body.t) (doc : Document.t) : Document.t :=
  let doc := match Body.title body with
             | Some title => Document.set_title title doc
             | None => doc
             end in
  let doc := match Body.content body with
             | Some content => Document.set_content content doc
             | None => doc
             end in
  match Body.tags body with
  | Some tags => Document.set_tags tags doc
  | None => doc
  end.

(** "Recompute AI fields if content/title changed"; [!tags] holds only for
    an absent [tags], any array being truthy. *)
Definition recomputeAI (body : Body.t) (doc : Document.t) (changes : Changes.t)
  : Tx (Document.t * Changes.t) :=
  if Changes.content changes || Changes.title changes then
    ai <- aiAssist (Document.content doc)
            (lines (Document.title doc) (Document.content doc)) ;;
    let '(summary, autoTags, embedding) := ai in
    let changes :=
      Changes.mk (Changes.title changes) (Changes.content changes)
        (Changes.tags changes)
        (bool_decide (Document.summary doc ≠ summary)) in
    let doc := Document.set_summary summary doc in
    let doc := Document.set_embedding embedding doc in
    match Body.tags body with
    | None =>
        let newTags := mergeTags (Document.tags doc) autoTags in
        let changes :=
          Changes.mk (Changes.title changes) (Changes.content changes)
            (Changes.tags changes
             || bool_decide (newTags ≠ Document.tags doc))
            (Changes.summary changes) in
        ret (Document.set_tags newTags doc, changes)
    | Some _ => ret (doc, changes)
    end
  else ret (doc, changes).

(** "Only create a new version if there are actual changes" *)
Definition versionIfChanged (user : User.t) (previousState : Snapshot.t)
    (doc : Document.t) (changes : Changes.t) : Tx Document.t :=
  if Changes.some changes then
    versioned <- createVersion user changes doc ;;
    let doc := fst versioned in
    logActivity Activity.updated doc user
      (Some (Document.currentVersion doc)) changes
      (Some previousState) (Some (Document.snapshot doc)) ;;
    ret doc
  else ret doc.

Definition updateDocument (user : User.t) (id : ObjectId) (body : Body.t)
  : DB → Response * DB :=
  handle
    (found <- findById id ;;
     match found with
     | None => abortTransaction ;; ret (reply 404 "Document not found")
     | Some doc =>
         if negb (canModify user doc) then
           abortTransaction ;; ret (reply 403 "Forbidden")
         else
           let changes := trackChanges body doc in
           let previousState := Document.snapshot doc in
           let doc := applyPatch body doc in
           recomputed <- recomputeAI body doc changes ;;
           let '(doc, changes) := recomputed in
           doc <- versionIfChanged user previousState doc changes ;;
           let doc := Document.set_lastUpdatedBy (User._id user) doc in
           doc <- save InController false doc ;;
           commitTransaction ;;
           updatedDoc <- findById (Document._id doc) ;;
           ret {| status := 200; json := DocumentJson updatedDoc |}
     end)
    (λ _, reply 500 "Failed to update document").

Definition deleteDocument (user : User.t) (id : ObjectId)
  : DB → Response * DB :=
  handle
    (found <- findById id ;;
     match found with
     | None => abortTransaction ;; ret (reply 404 "Document not found")
     | Some doc =>
         if negb (canModify user doc) then
           abortTransaction ;; ret (reply 403 "Forbidden")
         else
           logActivity Activity.deleted doc user None noChanges None None ;;
           softDelete doc ;;
           commitTransaction ;;
           ret (reply 200 "Document deleted successfully")
     end)
    (λ _, reply 500 "Failed to delete document").

Definition forceSummarize (user : User.t) (id : ObjectId)
  : DB → Response * DB :=
  handle
    (found <- findById id ;;
     match found with
     | None => ret (reply 404 "Document not found")
     | Some doc =>
         if negb (canModify user doc) then ret (reply 403 "Forbidden")
         else
           let doc :=
             Document.set_summary
               (Gemini.summarizeText (world env) (Document.content doc)) doc in
           doc <- saveNow InController doc ;;
           ret {| status := 200; json := SummaryJson (Document.summary doc) |}
     end)
    (λ _, reply 500 "Failed to summarize").

Definition forceTags (user : User.t) (id : ObjectId)
  : DB → Response * DB :=
  handle
    (found <- findById id ;;
     match found with
     | None => ret (reply 404 "Document not found")
     | Some doc =>
         if negb (canModify user doc) then ret (reply 403 "Forbidden")
         else
           let newTags :=
             Gemini.generateTags (world env)
               (lines (Document.title doc) (Document.content doc)) 6 in
           let doc :=
             Document.set_tags (mergeTags (Document.tags doc) newTags) doc in
           doc <- saveNow InController doc ;;
           ret {| status := 200; json := TagsJson (Document.tags doc) |}
     end)
    (λ _, reply 500 "Failed to generate tags").

(** The assignments that put a ledger entry back into the document. *)
Definition restoreFields (versionToRestore : Version.t) (user : User.t)
    (doc : Document.t) : Document.t :=
  let doc := Document.set_title (Version.title versionToRestore) doc in
  let doc := Document.set_content (Version.content versionToRestore) doc in
  let doc := Document.set_summary (Version.summary versionToRestore) doc in
  let doc := Document.set_tags (Version.tags versionToRestore) doc in
  Document.set_lastUpdatedBy (User._id user) doc.

(** [restoreVersion]; [versionNumber] is [parseInt] of the route parameter,
    [None] when that is not a number. *)
Definition restoreVersion (user : User.t) (id : ObjectId)
    (versionNumber : option N) : DB → Response * DB :=
  handle
    (found <- findById id ;;
     match found with
     | None => abortTransaction ;; ret (reply 404 "Document not found")
     | Some doc =>
         if negb (canModify user doc) then
           abortTransaction ;; ret (reply 403 "Forbidden")
         else
           match
             List.find
               (λ v, bool_decide (Some (Version.versionNumber v) = versionNumber))
               (Document.versions doc)
           with
           | None => abortTransaction ;; ret (reply 404 "Version not found")
           | Some versionToRestore =>
               versioned <- createVersion user Changes.all doc ;;
               let doc := restoreFields versionToRestore user (fst versioned) in
               doc <- save InController false doc ;;
               logActivity Activity.version_created doc user
                 (Some (Document.currentVersion doc)) Changes.all
                 (Some (Document.snapshot doc))
                 (Some (Version.snapshot versionToRestore)) ;;
               commitTransaction ;;
               updatedDoc <- findById (Document._id doc) ;;
               ret {| status := 200;
                      json := RestoredJson
                                (str "Document restored to the selected version")
                                updatedDoc |}
           end
     end)
    (λ _, reply 500 "Failed to restore document version").

End Controller.

(** ** routes/document.routes.js: the four mutations *)

Inductive Mutation :=
| Create (body : Body.t)
| Update (id : ObjectId) (body : Body.t)
| Delete (id : ObjectId)
| Restore (id : ObjectId) (versionNumber : option N).

Definition route (env : Env) (user : User.t) (m : Mutation)
  : DB → Response * DB :=
  match m with
  | Create body => createDocument env user body
  | Update id body => updateDocument env user id body
  | Delete id => deleteDocument env user id
  | Restore id versionNumber => restoreVersion env user id versionNumber
  end.


(** * Vocabulary of the properties *)

(** [keeps R c]: running [c] moves the session along [R], whether [c]
    returns or throws. *)
Definition keeps {A} (R : relation Session) (c : Tx A) : Prop :=
  ∀ s, R s (c s).2.

(** Relations that do not look at the uncommitted write, or at the log. *)
Class PendingBlind (R : relation Session) : Prop :=
  pending_blind : ∀ s p, R s {| db := db s; pending := p |}.

Class LogBlind (R : relation Session) : Prop :=
  log_blind : ∀ s l,
    R s {| db := {| documents := documents (db s); activities := l |};
           pending := pending s |}.

Definition sameDocuments : relation Session :=
  λ s s', documents (db s') = documents (db s).

Definition sameLog : relation Session :=
  λ s s', activities (db s') = activities (db s).

(** A handler body either leaves the [documents] collection as it was, or
    returns a response with status [n]. *)
Definition commitOrKeep (n : N) (c : Tx Response) : Prop :=
  ∀ s, documents (db (c s).2) = documents (db s)
       ∨ ∃ r, (c s).1 = inr r ∧ status r = n.

(** The status with which each mutation reports success. *)
Definition successStatus (m : Mutation) : N :=
  match m with
  | Create _ => 201
  | _ => 200
  end.

(** Two sessions agree when they differ at most in the activity log. *)
Definition agree (s1 s2 : Session) : Prop :=
  documents (db s1) = documents (db s2) ∧ pending s1 = pending s2.

(** [alike c1 c2]: from sessions that agree, [c1] and [c2] answer the same
    and leave sessions that agree. *)
Definition alike {A} (c1 c2 : Tx A) : Prop :=
  ∀ s1 s2, agree s1 s2 → (c1 s1).1 = (c2 s2).1 ∧ agree (c1 s1).2 (c2 s2).2.

(** The document a request would find under [id] once the session commits. *)
Definition view (s : Session) (id : ObjectId) : option Document.t :=
  match pending s with
  | Some doc => lookup id (write doc (documents (db s)))
  | None => lookup id (documents (db s))
  end.

(** The document [createDocument] stores. *)
Definition createdDocument (env : Env) (user : User.t)
    (title content : jsstring) (tags : list jsstring)
    (embedding : Gemini.Embedding) : Document.t :=
  Document.set_timestamps (now env) (now env)
    (Document.preSave true
       (Document.new (newObjectId env) title content
          (Gemini.summarizeText (world env) content) tags embedding
          (User._id user) (User._id user))).

(** The tags [createDocument] gives the document. *)
Definition createdTags (env : Env) (title content : jsstring) (body : Body.t)
  : list jsstring :=
  match Body.tags body with
  | Some tags => tags
  | None => Gemini.generateTags (world env) (lines title content) 6
  end.

(** The tags an update leaves in the document before it is versioned. *)
Definition updatedTags (env : Env) (body : Body.t) (doc : Document.t)
  : list jsstring :=
  match Body.tags body with
  | Some tags => tags
  | None =>
      if Changes.content (trackChanges body doc)
         || Changes.title (trackChanges body doc)
      then mergeTags (Document.tags doc)
             (Gemini.generateTags (world env)
                (lines (Document.title (applyPatch body doc))
                   (Document.content (applyPatch body doc))) 6)
      else Document.tags doc
  end.

(** A patch none of whose values differs from the document's: each field is
    absent, or identical to the current one (tags as a sequence). *)
Definition unchangedPatch (body : Body.t) (doc : Document.t) : Prop :=
  (∀ title, Body.title body = Some title → title = Document.title doc)
  ∧ (∀ content, Body.content body = Some content →
       content = Document.content doc)
  ∧ (∀ tags, Body.tags body = Some tags → tags = Document.tags doc).

(** Every stored ledger has at most 10 entries. *)
Definition ledgersBounded (d : DB) : Prop :=
  ∀ doc, doc ∈ documents d → (length (Document.versions doc) ≤ 10)%nat.

(** The controller without versioning, [src/controllers/document.controller.js],
    gives a new document
    [Array.from(new Set([...(tags || []), ...autoTags])).slice(0, 10)]. *)
Definition legacyCreatedTags (env : Env) (title content : jsstring)
    (body : Body.t) : list jsstring :=
  mergeTags (default [] (Body.tags body))
    (Gemini.generateTags (world env) (lines title content) 6).

(** ** A concrete deployment, for examples *)

Module Example.

(** No API key: every AI wrapper falls back. The ranking below is what
    [naive()] yields on the two texts the examples use. *)
Definition offline : Gemini.World :=
  {| Gemini.genAI := None;
     Gemini.naiveRanking := λ _, [str "step"; str "runbook"; str "one"; str "two"];
     Gemini.parseTags := λ _, [];
     Gemini.hashVector := λ _, [] |}.

(** A request environment at time [t] in which nothing fails. *)
Definition at_time (t : N) : Env :=
  {| world := offline; diffWords := λ _ _, []; regexTest := λ _ _, false;
     now := t; newObjectId := 1; activityWriteFails := false;
     saveFails := λ _, false; commitFails := false |}.

Definition alice : User.t := User.mk 7 (str "user").

Definition empty : DB := {| documents := []; activities := [] |}.

Definition runbook : Body.t :=
  Body.mk (Some (str "Runbook")) (Some (str "Step one. Step two.")) None.

(** The database after Alice has created the runbook. *)
Definition created : DB := snd (createDocument (at_time 1) alice runbook empty).



(** The [n]-th of a series of edits, each with a content of its own, and
    the database after the first [n] of them, one per tick of the clock. *)
Definition edit (n : nat) : Body.t :=
  Body.mk None (Some (str "Step " ++ decimal n)) None.

Fixpoint edited (n : nat) (d : DB) : DB :=
  match n with
  | O => d
  | S k =>
      snd (updateDocument (at_time (N.of_nat (S n))) alice 1 (edit n)
             (edited k d))
  end.

(** The database after Alice has deleted the runbook. *)
Definition deleted : DB := snd (deleteDocument (at_time 2) alice 1 created).

(** A document written before the ledger existed: no entry, counter at its
    default. *)
Definition legacyDocument : Document.t :=
  Document.mk 1 (str "Notes") (str "alpha beta") (str "alpha beta")
    [str "a"; str "b"] [] 1 7 None [] false 0 0.

Definition legacy : DB := {| documents := [legacyDocument]; activities := [] |}.

(** The tags of [legacyDocument], in another order. *)
Definition reordered : Body.t := Body.mk None None (Some [str "b"; str "a"]).

(** What is left of a database for inspection: per document the version
    counter, the version numbers of its ledger and its number of tags; and
    the kinds of the activity records. *)
Definition ledgers (d : DB) : list (N * list N * nat) :=
  (λ doc, (Document.currentVersion doc,
           Version.versionNumber <$> Document.versions doc,
           length (Document.tags doc))) <$> documents d.

Definition actions (d : DB) : list Activity.Action :=
  Activity.action <$> activities d.

End Example.

(** * The readers and the remaining wrappers *)

(** ** JavaScript arrays and numbers *)

(** [Array.prototype.sort] with a comparator is a stable sort. [before x y]
    holds when the comparator does not put [y] strictly before [x]; an
    element is inserted in front of the first one it may precede, so equal
    elements keep their order. *)
Fixpoint insertSorted {A} (before : A → A → bool) (x : A) (l : list A)
  : list A :=
  match l with
  | [] => [x]
  | y :: l' => if before x y then x :: l else y :: insertSorted before x l'
  end.

Definition sortStable {A} (before : A → A → bool) (l : list A) : list A :=
  foldr (insertSorted before) [] l.

(** The result of [parseInt]: a finite integer, or NaN ([None]). *)
Definition jsint : Type := option Z.

(** [a + b] on such numbers: NaN when either side is. *)
Definition plus (a b : jsint) : jsint :=
  match a, b with
  | Some x, Some y => Some (x + y)%Z
  | _, _ => None
  end.

(** [a < n]: false when [a] is NaN. *)
Definition lessThan (a : jsint) (n : nat) : bool :=
  match a with
  | Some x => bool_decide (x < Z.of_nat n)%Z
  | None => false
  end.

(** An index of [Array.prototype.slice]: NaN counts as 0, a negative index
    counts from the end, and the result is clamped to the array. *)
Definition relativeIndex (len : nat) (i : jsint) : nat :=
  match i with
  | None => 0
  | Some z =>
      if bool_decide (z < 0)%Z then Z.to_nat (Z.max (Z.of_nat len + z) 0)
      else Nat.min (Z.to_nat z) len
  end.

(** [a.slice(start, stop)] *)
Definition slice {A} (start stop : jsint) (l : list A) : list A :=
  let k := relativeIndex (length l) start in
  let final := relativeIndex (length l) stop in
  take (final - k) (drop k l).

(** What a reader sends: a body with status 200, or a status and a
    message. *)
Inductive Answer (A : Type) :=
| Sent (a : A)
| Refused (status : N) (message : jsstring).

Arguments Sent {A} a.
Arguments Refused {A} status message.

(** ** controllers/document.controller.js: the version history and the feed *)

Module VersionsPage.
Record t := mk { versions : list Version.t; total : nat; hasMore : bool }.
End VersionsPage.

(** The comparator [(a, b) => b.versionNumber - a.versionNumber]. *)
Definition higherVersion (a b : Version.t) : bool :=
  bool_decide (Version.versionNumber b ≤ Version.versionNumber a).

(** [getDocumentVersions]; [skip] and [limit] are [parseInt] of the query
    parameters (of 0 and 10 when a parameter is absent). The sort is in
    place and leaves the length of [doc.versions] as it is. *)
Definition getDocumentVersions (id : ObjectId) (skip limit : jsint) (d : DB)
  : Answer VersionsPage.t :=
  match lookup id (documents d) with
  | None => Refused 404 (str "Document not found")
  | Some doc =>
      let sortedVersions := sortStable higherVersion (Document.versions doc) in
      let paginatedVersions := slice skip (plus skip limit) sortedVersions in
      Sent
        (VersionsPage.mk paginatedVersions
           (length (Document.versions doc))
           (lessThan
              (plus skip (Some (Z.of_nat (length paginatedVersions))))
              (length (Document.versions doc))))
  end.

Module Feed.
(** A record of the feed: the activity with its text and its timestamp. *)
Record Item := mkItem {
  activity : Activity.t;
  actionText : jsstring;
  timestamp : N
}.

Record t := mk { activities : list Item; total : nat; hasMore : bool }.
End Feed.

(** [actionMap[activity.action]]; the schema's enum leaves no action outside
    the map. *)
Definition actionText (action : Activity.Action) : jsstring :=
  match action with
  | Activity.created => str "created the document"
  | Activity.updated => str "updated the document"
  | Activity.deleted => str "deleted the document"
  | Activity.version_created => str "created a new version of the document"
  end.

(** [.sort({ createdAt: -1 })]; records with equal [createdAt] come in the
    order the sort leaves them. *)
Definition laterActivity (a b : Activity.t) : bool :=
  bool_decide (Activity.createdAt b ≤ Activity.createdAt a).

(** [{ ...activity, actionText: actionMap[activity.action], timestamp:
    activity.createdAt }] *)
Definition feedItem (activity : Activity.t) : Feed.Item :=
  Feed.mkItem activity (actionText (Activity.action activity))
    (Activity.createdAt activity).

(** [activityFeed]; [skip] and [limit] are [parseInt] of the query
    parameters (of 0 and 10 when absent), taken non-negative; [limit(0)] is
    no limit. *)
Definition activityFeed (skip limit : nat) (d : DB) : Feed.t :=
  let sorted := sortStable laterActivity (activities d) in
  let skipped := drop skip sorted in
  let page :=
    if bool_decide (limit = 0%nat) then skipped else take limit skipped in
  Feed.mk (feedItem <$> page)
    (length (activities d))
    (bool_decide (skip + length page < length (activities d))%nat).

(** ** controllers/search.controller.js *)

(** [textSearch]: the listing's [q] filter, asked by anybody. *)
Definition textSearch (env : Env) (q : option jsstring) (limit page : nat)
    (d : DB) : Response :=
  let found :=
    newestFirst
      (filter
         (λ doc,
            match truthy q with
            | Some q =>
                regexTest env q (Document.title doc)
                || regexTest env q (Document.content doc)
                || existsb (regexTest env q) (Document.tags doc)
            | None => true
            end = true)
         (documents d)) in
  if bool_decide (page = 0%nat ∧ limit ≠ 0%nat)
  then reply 500 "Text search failed"
  else
    let skipped := drop ((page - 1) * limit)%nat found in
    {| status := 200;
       json := DocumentsJson
                 (if bool_decide (limit = 0%nat) then skipped
                  else take limit skipped) |}.

(** ** utils/gemini.js: the fallback embedding and the answers *)

(** The loop of [embedText] without a client: [vec[i % 64] = (vec[i % 64] +
    text.charCodeAt(i)) % 1000], from index [i] on. *)
Fixpoint hashLoop (i : nat) (text : jsstring) (vec : list N) : list N :=
  match text with
  | [] => vec
  | code :: rest =>
      hashLoop (S i) rest (alter (λ v, (v + code) mod 1000) (i mod 64)%nat vec)
  end.

(** The vector of that loop, before each entry is divided by 1000 (the
    entries of [Gemini.hashVector] are these, divided). *)
Definition hashCounts (text : jsstring) : list N :=
  hashLoop 0 text (replicate 64 0).

(** The sum of the code units of [text] whose index, counted from [i], is
    [j] modulo 64. *)
Fixpoint residueSum (j i : nat) (text : jsstring) : N :=
  match text with
  | [] => 0
  | code :: rest =>
      (if bool_decide (i mod 64 = j)%nat then code else 0)
      + residueSum j (S i) rest
  end.

(** [a.join(sep)] *)
Fixpoint join (sep : jsstring) (parts : list jsstring) : jsstring :=
  match parts with
  | [] => []
  | [p] => p
  | p :: rest => p ++ sep ++ join sep rest
  end.

(** One document of the context of [answerQuestion]. *)
Definition contextEntry (i : nat) (d : Document.t) : jsstring :=
  str "Doc " ++ decimal (i + 1) ++ str " - Title: " ++ Document.title d
    ++ [10] ++ str "Summary: " ++ Document.summary d
    ++ [10] ++ str "Content: " ++ slice_to 1500 (Document.content d).

Definition answerPrompt (question : jsstring) (docs : list Document.t)
  : jsstring :=
  str "You are an AI assistant answering questions using ONLY the provided team documents."
    ++ [10; 10] ++ str "Context:" ++ [10]
    ++ join [10; 10] (imap contextEntry (slice_to 5 docs))
    ++ [10; 10] ++ str "Question: " ++ question ++ [10; 10]
    ++ str "Give a concise, accurate answer. If insufficient context, say so and suggest next steps.".

Definition answerQuestion (w : Gemini.World) (question : jsstring)
    (docs : list Document.t) : jsstring :=
  match docs with
  | [] => str "No relevant documents found."
  | first :: _ =>
      match Gemini.genAI w with
      | None =>
          str "Based on available docs, likely relevant: "
            ++ Document.title first
      | Some client =>
          match Gemini.generateContent client (answerPrompt question docs) with
          | Some answer => answer
          | None =>
              str "Based on available docs, likely relevant: "
                ++ Document.title first
          end
      end
  end.

(** ** controllers/ai.controller.js *)

(** [teamQA]: the question is asked over the 10 documents updated last. *)
Definition teamQA (env : Env) (question : option jsstring) (d : DB)
  : Answer jsstring :=
  match truthy question with
  | None => Refused 400 (str "Question is required")
  | Some question =>
      Sent (answerQuestion (world env) question
              (slice_to 10 (newestFirst (documents d))))
  end.

(** ** Vocabulary of the further properties *)

(** [appends P n c]: whether it returns or throws, [c] leaves the activity
    log as it was followed by at most [n] new records, each satisfying
    [P]. *)
Definition appends {A} (P : Activity.t → Prop) (n : nat) (c : Tx A) : Prop :=
  ∀ s, ∃ l, activities (db (c s).2) = activities (db s) ++ l
            ∧ (length l ≤ n)%nat ∧ Forall P l.

(** A record written at this request by this caller. *)
Definition writtenBy (env : Env) (user : User.t) (a : Activity.t) : Prop :=
  Activity.user a = User._id user
  ∧ Activity.createdAt a = now env
  ∧ Activity.documentTitle a ≠ [].

(** What no request changes in a stored document: its identity, its creator
    and its creation time; the version counter never goes back and a deleted
    document stays deleted. *)
Definition sameRecord (doc doc' : Document.t) : Prop :=
  Document._id doc' = Document._id doc
  ∧ Document.createdBy doc' = Document.createdBy doc
  ∧ Document.createdAt doc' = Document.createdAt doc
  ∧ Document.currentVersion doc ≤ Document.currentVersion doc'
  ∧ (Document.isDeleted doc = true → Document.isDeleted doc' = true).

(** A ledger in order: version numbers strictly ascending and none above
    the document's counter. *)
Definition ledgerOrdered (doc : Document.t) : Prop :=
  StronglySorted
    (λ a b, Version.versionNumber a < Version.versionNumber b)
    (Document.versions doc)
  ∧ Forall (λ v, Version.versionNumber v ≤ Document.currentVersion doc)
      (Document.versions doc).

Definition ledgersOrdered (d : DB) : Prop :=
  ∀ doc, doc ∈ documents d → ledgerOrdered doc.

(** ** Further concrete requests *)

Module Scenario.

(** Another member of the team, and an administrator. *)
Definition bob : User.t := User.mk 8 (str "user").

Definition root : User.t := User.mk 9 (str "admin").

(** The runbook as Alice's create stores it. *)
Definition stored : Document.t :=
  createdDocument (Example.at_time 1) Example.alice (str "Runbook")
    (str "Step one. Step two.")
    (createdTags (Example.at_time 1) (str "Runbook")
       (str "Step one. Step two.") Example.runbook)
    [].

(** A create whose title is three blanks. *)
Definition blank : Body.t :=
  Body.mk (Some (str "   ")) (Some (str "Step one.")) None.

(** A create without a title. *)
Definition untitled : Body.t := Body.mk None (Some (str "Step one.")) None.

(** The runbook as Alice's delete at time 2 leaves it. *)
Definition removed : Document.t :=
  Document.set_timestamps 1 2 (Document.set_isDeleted true stored).

End Scenario.

(** * Properties *)

(** ** Reasoning about code that runs in a session *)

#[global] Instance sameDocuments_preorder : PreOrder sameDocuments.
Proof. split; unfold sameDocuments; [done|]. intros s1 s2 s3 H1 H2. congruence. Qed.

#[global] Instance sameDocuments_pending : PendingBlind sameDocuments.
Proof. done. Qed.

#[global] Instance sameDocuments_log : LogBlind sameDocuments.
Proof. done. Qed.

#[global] Instance sameLog_preorder : PreOrder sameLog.
Proof. split; unfold sameLog; [done|]. intros s1 s2 s3 H1 H2. congruence. Qed.

#[global] Instance sameLog_pending : PendingBlind sameLog.
Proof. done. Qed.

Section Keeps.

Context (R : relation Session) `{!PreOrder R}.

Lemma keeps_pure {A} (c : Tx A) : (∀ s, (c s).2 = s) → keeps R c.
Proof. intros H s. by rewrite H. Qed.

Lemma keeps_ret {A} (a : A) : keeps R (ret a).
Proof. by apply keeps_pure. Qed.

Lemma keeps_throw {A} e : keeps R (throw (A:=A) e).
Proof. by apply keeps_pure. Qed.

Lemma keeps_bind {A B} (c : Tx A) (k : A → Tx B) :
  keeps R c → (∀ a, keeps R (k a)) → keeps R (bind c k).
Proof.
  intros Hc Hk s. unfold bind. specialize (Hc s).
  destruct (c s) as [[e|a] s1]; simpl in *; [done|].
  by etrans; [|apply Hk].
Qed.

Lemma keeps_tryCatch {A} (c : Tx A) (h : Error → Tx A) :
  keeps R c → (∀ e, keeps R (h e)) → keeps R (tryCatch c h).
Proof.
  intros Hc Hh s. unfold tryCatch. specialize (Hc s).
  destruct (c s) as [[e|a] s1]; simpl in *; [|done].
  by etrans; [|apply Hh].
Qed.

Lemma keeps_findById id : keeps R (findById id).
Proof. by apply keeps_pure. Qed.

Lemma keeps_assignDiff f v : keeps R (assignDiff f v).
Proof. apply keeps_pure. intros s. unfold assignDiff. by destruct (Version.diff v). Qed.

Lemma keeps_aiAssist env a b : keeps R (aiAssist env a b).
Proof. apply keeps_pure. intros s. unfold aiAssist. by destruct (Gemini.embedText _ _). Qed.

Lemma keeps_save `{!PendingBlind R} env site isNew doc :
  keeps R (save env site isNew doc).
Proof.
  intros s. unfold save.
  repeat (case_match; simpl); try reflexivity; apply pending_blind.
Qed.

Lemma keeps_abortTransaction `{!PendingBlind R} : keeps R abortTransaction.
Proof. intros s. apply pending_blind. Qed.

Lemma keeps_Activity_create `{!LogBlind R} env a :
  keeps R (Activity_create env a).
Proof.
  intros s. unfold Activity_create.
  repeat (case_match; simpl); try reflexivity. apply log_blind.
Qed.

Lemma keeps_Activity_create_failing env a :
  activityWriteFails env = true → keeps R (Activity_create env a).
Proof.
  intros Hf. apply keeps_pure. intros s. unfold Activity_create.
  rewrite Hf. by case_match.
Qed.

End Keeps.

(** Structural descent through a handler body. *)
Ltac keeps_step :=
  lazymatch goal with
  | |- keeps _ (bind _ _) => apply keeps_bind; [try apply _| |intros ?]
  | |- keeps _ (ret _) => apply keeps_ret; apply _
  | |- keeps _ (throw _) => apply keeps_throw; apply _
  | |- keeps _ (tryCatch _ _) => apply keeps_tryCatch; [try apply _| |intros ?]
  | |- keeps _ (findById _) => apply keeps_findById; apply _
  | |- keeps _ (assignDiff _ _) => apply keeps_assignDiff; apply _
  | |- keeps _ (aiAssist _ _ _) => apply keeps_aiAssist; apply _
  | |- keeps _ (save _ _ _ _) => apply keeps_save; apply _
  | |- keeps _ abortTransaction => apply keeps_abortTransaction; apply _
  | |- keeps _ (recomputeAI _ _ _ _) => unfold recomputeAI
  | |- keeps _ (versionIfChanged _ _ _ _ _) => unfold versionIfChanged
  | |- keeps _ (match ?x with _ => _ end) => destruct x
  end.

Ltac keeps_auto := cbv zeta; repeat (keeps_step; cbv zeta).

Section KeepsMethods.

Context (R : relation Session) `{!PreOrder R, !PendingBlind R}.

Lemma keeps_computeDiffs env changes this v :
  keeps R (computeDiffs env changes this v).
Proof. unfold computeDiffs. keeps_auto. Qed.

Lemma keeps_createVersion env user changes this :
  keeps R (createVersion env user changes this).
Proof.
  unfold createVersion. keeps_auto. apply keeps_computeDiffs.
Qed.

Lemma keeps_softDelete env this : keeps R (softDelete env this).
Proof. unfold softDelete. keeps_auto. Qed.

Lemma keeps_logActivity `{!LogBlind R} env action doc user n changes p q :
  keeps R (logActivity env action doc user n changes p q).
Proof.
  unfold logActivity. keeps_auto. apply keeps_Activity_create; apply _.
Qed.

Lemma keeps_logActivity_failing env action doc user n changes p q :
  activityWriteFails env = true →
  keeps R (logActivity env action doc user n changes p q).
Proof.
  intros Hf. unfold logActivity. keeps_auto.
  apply keeps_Activity_create_failing; [apply _|done].
Qed.

End KeepsMethods.

(** ** Rollback *)

Lemma commitOrKeep_keeps n c : keeps sameDocuments c → commitOrKeep n c.
Proof. intros H s. left. apply H. Qed.

Lemma commitOrKeep_bind {A} n (c : Tx A) k :
  keeps sameDocuments c → (∀ a, commitOrKeep n (k a)) →
  commitOrKeep n (bind c k).
Proof.
  intros Hc Hk s. unfold bind. specialize (Hc s). unfold sameDocuments in Hc.
  destruct (c s) as [[e|a] s1]; simpl in *; [by left|].
  destruct (Hk a s1) as [Hd|Hr]; [left; congruence|by right].
Qed.

Lemma commitOrKeep_commit n env k :
  (∀ s, ∃ r, (k tt s).1 = inr r ∧ status r = n) →
  commitOrKeep n (bind (commitTransaction env) k).
Proof.
  intros Hk s. unfold bind, commitTransaction.
  destruct (commitFails env); simpl; [by left|]. right. apply Hk.
Qed.

Ltac commit_step :=
  lazymatch goal with
  | |- commitOrKeep _ (bind (commitTransaction _) _) =>
      apply commitOrKeep_commit; intros ?; eexists; split; reflexivity
  | |- commitOrKeep _ (bind _ _) => apply commitOrKeep_bind; [|intros ?]
  | |- commitOrKeep _ (match ?x with _ => _ end) => destruct x
  | |- commitOrKeep _ _ => apply commitOrKeep_keeps
  | |- keeps _ (createVersion _ _ _ _) => apply keeps_createVersion; apply _
  | |- keeps _ (softDelete _ _) => apply keeps_softDelete; apply _
  | |- keeps _ (logActivity _ _ _ _ _ _ _ _) => apply keeps_logActivity; apply _
  | |- keeps _ _ => keeps_step
  end.

Ltac commit_auto := cbv zeta; repeat (commit_step; cbv zeta).

Lemma handle_rollback n body onError d :
  commitOrKeep n body →
  status (handle body onError d).1 ≠ n →
  documents (handle body onError d).2 = documents d.
Proof.
  intros Hb. unfold handle.
  destruct (Hb {| db := d; pending := None |}) as [Hd|(r & Hr & Hs)].
  - destruct (body _) as [[e|r] s]; simpl in *; done.
  - destruct (body _) as [[e|r'] s]; simpl in *; [done|].
    injection Hr as ->. congruence.
Qed.

Lemma route_rollback env user m d :
  status (route env user m d).1 ≠ successStatus m →
  documents (route env user m d).2 = documents d.
Proof.
  destruct m; simpl;
    [unfold createDocument|unfold updateDocument
    |unfold deleteDocument|unfold restoreVersion];
    apply handle_rollback; commit_auto.
Qed.


(** ** The audit write *)

Lemma alike_ret {A} (a : A) : alike (ret a) (ret a).
Proof. by intros s1 s2 H. Qed.

Lemma alike_throw {A} e : alike (throw (A:=A) e) (throw e).
Proof. by intros s1 s2 H. Qed.

Lemma alike_bind {A B} (c1 c2 : Tx A) (k1 k2 : A → Tx B) :
  alike c1 c2 → (∀ a, alike (k1 a) (k2 a)) → alike (bind c1 k1) (bind c2 k2).
Proof.
  intros Hc Hk s1 s2 H. unfold bind. destruct (Hc s1 s2 H) as [Hr Hs].
  destruct (c1 s1) as [[e1|a1] t1], (c2 s2) as [[e2|a2] t2];
    simpl in *; simplify_eq; [done|]. by apply Hk.
Qed.

Lemma alike_findById id : alike (findById id) (findById id).
Proof. intros s1 s2 [Hd Hp]. unfold findById. simpl. by rewrite Hd. Qed.

Lemma alike_assignDiff f v : alike (assignDiff f v) (assignDiff f v).
Proof. unfold assignDiff. destruct (Version.diff v); [apply alike_ret|apply alike_throw]. Qed.

Lemma alike_abortTransaction : alike abortTransaction abortTransaction.
Proof. intros s1 s2 [Hd Hp]. done. Qed.

Section Audit.

Context (env : Env) (b1 b2 : bool).

Lemma alike_aiAssist a b : alike (aiAssist (withActivityWrite b1 env) a b)
        (aiAssist (withActivityWrite b2 env) a b).
Proof.
  unfold aiAssist. simpl.
  destruct (Gemini.embedText _ _); [apply alike_ret|apply alike_throw].
Qed.

Lemma alike_save site isNew doc :
  alike (save (withActivityWrite b1 env) site isNew doc)
        (save (withActivityWrite b2 env) site isNew doc).
Proof.
  intros s1 s2 Hag. destruct (Hag) as [Hd Hp].
  unfold save. simpl. rewrite Hd, Hp.
  repeat (case_match; simpl); done.
Qed.

Lemma alike_commitTransaction :
  alike (commitTransaction (withActivityWrite b1 env))
        (commitTransaction (withActivityWrite b2 env)).
Proof.
  intros s1 s2 Hag. destruct (Hag) as [Hd Hp].
  unfold commitTransaction, publish. simpl.
  rewrite Hd, Hp. repeat (case_match; simpl); done.
Qed.

Lemma alike_logActivity action doc user n changes p q :
  alike (logActivity (withActivityWrite b1 env) action doc user n changes p q)
        (logActivity (withActivityWrite b2 env) action doc user n changes p q).
Proof.
  intros s1 s2 Hag. unfold logActivity, tryCatch, Activity_create. simpl.
  repeat (case_match; simplify_eq/=); done.
Qed.

End Audit.

Ltac alike_step :=
  lazymatch goal with
  | |- alike (bind _ _) (bind _ _) => apply alike_bind; [|intros ?]
  | |- alike (ret _) (ret _) => apply alike_ret
  | |- alike (throw _) (throw _) => apply alike_throw
  | |- alike (findById _) _ => apply alike_findById
  | |- alike (assignDiff _ _) _ => apply alike_assignDiff
  | |- alike abortTransaction _ => apply alike_abortTransaction
  | |- alike (aiAssist _ _ _) _ => apply alike_aiAssist
  | |- alike (save _ _ _ _) _ => apply alike_save
  | |- alike (commitTransaction _) _ => apply alike_commitTransaction
  | |- alike (logActivity _ _ _ _ _ _ _ _) _ => apply alike_logActivity
  | |- alike (recomputeAI _ _ _ _) _ => unfold recomputeAI
  | |- alike (versionIfChanged _ _ _ _ _) _ => unfold versionIfChanged
  | |- alike (match ?x with _ => _ end) _ => destruct x
  end.

Ltac alike_auto := cbv zeta; repeat (alike_step; cbv zeta).

Lemma alike_computeDiffs env b1 b2 changes this v :
  alike (computeDiffs (withActivityWrite b1 env) changes this v)
        (computeDiffs (withActivityWrite b2 env) changes this v).
Proof. unfold computeDiffs. alike_auto. Qed.

Lemma alike_createVersion env b1 b2 user changes this :
  alike (createVersion (withActivityWrite b1 env) user changes this)
        (createVersion (withActivityWrite b2 env) user changes this).
Proof. unfold createVersion. alike_auto. apply alike_computeDiffs. Qed.

Lemma alike_softDelete env b1 b2 this :
  alike (softDelete (withActivityWrite b1 env) this)
        (softDelete (withActivityWrite b2 env) this).
Proof. unfold softDelete. alike_auto. Qed.

Lemma handle_alike body1 body2 onError d :
  alike body1 body2 →
  (handle body1 onError d).1 = (handle body2 onError d).1
  ∧ documents (handle body1 onError d).2 = documents (handle body2 onError d).2.
Proof.
  intros H. unfold handle.
  destruct (H {| db := d; pending := None |} {| db := d; pending := None |})
    as [Hr [Hd _]]; [done|].
  destruct (body1 _) as [[e1|r1] s1], (body2 _) as [[e2|r2] s2];
    simpl in *; simplify_eq; done.
Qed.

Lemma keeps_commitTransaction_log env : keeps sameLog (commitTransaction env).
Proof.
  intros s. unfold commitTransaction, publish, sameLog.
  repeat (case_match; simpl); done.
Qed.

Lemma handle_log body onError d :
  keeps sameLog body → activities (handle body onError d).2 = activities d.
Proof.
  intros H. unfold handle. specialize (H {| db := d; pending := None |}).
  unfold sameLog in H. by destruct (body _) as [[e|r] s].
Qed.

Ltac silent_step :=
  lazymatch goal with
  | |- keeps _ (commitTransaction _) => apply keeps_commitTransaction_log
  | |- keeps _ (createVersion _ _ _ _) => apply keeps_createVersion; apply _
  | |- keeps _ (softDelete _ _) => apply keeps_softDelete; apply _
  | |- keeps _ (logActivity _ _ _ _ _ _ _ _) =>
      apply keeps_logActivity_failing; [apply _|reflexivity]
  | |- keeps _ _ => keeps_step
  end.

Ltac silent_auto := cbv zeta; repeat (silent_step; cbv zeta).

(** C8. For every mutation, a failing write of the activity record changes
    neither the response nor the [documents] collection: both are what they
    are when the audit write goes through; the failure itself only leaves the
    activity log as it was. *)
Theorem audit_failure_never_fails_the_mutation env user m d :
  let logged := route (withActivityWrite false env) user m d in
  let unlogged := route (withActivityWrite true env) user m d in
  unlogged.1 = logged.1
  ∧ documents unlogged.2 = documents logged.2
  ∧ activities unlogged.2 = activities d.
Proof.
  cbv zeta.
  match goal with
  | |- ?A ∧ ?B ∧ ?C => cut ((A ∧ B) ∧ C); [tauto|split]
  end.
  - destruct m; simpl;
      [unfold createDocument|unfold updateDocument
      |unfold deleteDocument|unfold restoreVersion];
      apply handle_alike; alike_auto;
      first [apply alike_createVersion|apply alike_softDelete].
  - destruct m; simpl;
      [unfold createDocument|unfold updateDocument
      |unfold deleteDocument|unfold restoreVersion];
      apply handle_log; silent_auto.
Qed.

(** ** Runs that return *)

Lemma lookup_Some_id id docs doc :
  lookup id docs = Some doc → Document._id doc = id.
Proof.
  unfold lookup. intros H. apply find_some in H as [_ H].
  by apply bool_decide_eq_true in H.
Qed.

Lemma lookup_app id docs1 docs2 :
  lookup id (docs1 ++ docs2) =
    match lookup id docs1 with
    | Some doc => Some doc
    | None => lookup id docs2
    end.
Proof.
  unfold lookup. induction docs1 as [|x docs1 IH]; simpl; [done|].
  by destruct (bool_decide (Document._id x = id)).
Qed.

Lemma lookup_app_new id doc docs :
  lookup id docs = None → Document._id doc = id →
  lookup id (docs ++ [doc]) = Some doc.
Proof.
  intros Hn Hid. rewrite lookup_app, Hn. unfold lookup. simpl.
  by rewrite bool_decide_eq_true_2.
Qed.

Lemma lookup_replace id doc docs :
  lookup id
    ((λ d, if bool_decide (Document._id d = Document._id doc) then doc else d)
       <$> docs)
  = if bool_decide (Document._id doc = id)
    then (λ _, doc) <$> lookup id docs else lookup id docs.
Proof.
  unfold lookup. induction docs as [|x docs IH].
  - simpl. by case_bool_decide.
  - rewrite fmap_cons. cbn [find].
    destruct (decide (Document._id x = Document._id doc)) as [Hx|Hx].
    + rewrite (bool_decide_eq_true_2 _ Hx).
      destruct (decide (Document._id doc = id)) as [Hd|Hd].
      * rewrite !bool_decide_eq_true_2 by congruence. done.
      * rewrite !bool_decide_eq_false_2 by congruence.
        rewrite IH. by rewrite bool_decide_eq_false_2.
    + rewrite (bool_decide_eq_false_2 _ Hx).
      destruct (decide (Document._id x = id)) as [Hi|Hi].
      * rewrite (bool_decide_eq_true_2 _ Hi).
        rewrite bool_decide_eq_false_2 by congruence. done.
      * rewrite (bool_decide_eq_false_2 _ Hi). apply IH.
Qed.

Lemma lookup_write_same doc docs :
  lookup (Document._id doc) (write doc docs) = Some doc.
Proof.
  unfold write. destruct (lookup (Document._id doc) docs) eqn:H.
  - rewrite lookup_replace, bool_decide_eq_true_2 by done. by rewrite H.
  - by apply lookup_app_new.
Qed.

Lemma lookup_write_other id doc docs :
  Document._id doc ≠ id → lookup id (write doc docs) = lookup id docs.
Proof.
  intros Hne. unfold write. destruct (lookup (Document._id doc) docs) eqn:H.
  - by rewrite lookup_replace, bool_decide_eq_false_2.
  - rewrite lookup_app. destruct (lookup id docs); [done|].
    unfold lookup. simpl. by rewrite bool_decide_eq_false_2.
Qed.

Lemma bind_inr {A B} (c : Tx A) (k : A → Tx B) s b s' :
  bind c k s = (inr b, s') →
  ∃ a s1, c s = (inr a, s1) ∧ k a s1 = (inr b, s').
Proof.
  unfold bind. destruct (c s) as [[e|a] s1]; [done|]. by exists a, s1.
Qed.

Lemma ret_inr {A} (a b : A) s s' : ret a s = (inr b, s') → a = b ∧ s = s'.
Proof. unfold ret. by intros [= -> ->]. Qed.

Lemma handle_status body onError d n :
  status (handle body onError d).1 = n →
  (∀ e, status (onError e) ≠ n) →
  ∃ r s, body {| db := d; pending := None |} = (inr r, s)
         ∧ handle body onError d = (r, db s) ∧ status r = n.
Proof.
  unfold handle. destruct (body _) as [[e|r] s]; simpl; intros H Hn.
  - by destruct (Hn e).
  - by exists r, s.
Qed.

Lemma save_new_inr env site doc s doc' s' :
  save env site true doc s = (inr doc', s') →
  Document.valid doc = true
  ∧ lookup (Document._id doc) (documents (db s)) = None
  ∧ doc' = Document.set_timestamps (now env) (now env) (Document.preSave true doc)
  ∧ s' = {| db := db s; pending := Some doc' |}.
Proof.
  unfold save. destruct (Document.valid doc); simpl; [|done].
  destruct (saveFails env site); simpl; [done|].
  case_bool_decide as Hl; simpl; [done|]. intros [= <- <-].
  split_and!; try done.
  destruct (lookup _ _) eqn:E; [|done]. destruct Hl. by eexists.
Qed.

Lemma save_inr env site doc s doc' s' :
  save env site false doc s = (inr doc', s') →
  Document.valid doc = true
  ∧ db s' = db s
  ∧ (∃ u, doc' = Document.set_timestamps (Document.createdAt doc) u doc)
  ∧ view s' (Document._id doc) = Some doc'
  ∧ (pending s' = Some doc' ∨ pending s' = None).
Proof.
  unfold save. destruct (Document.valid doc); simpl; [|done].
  case_bool_decide as Hb.
  - intros [= <- <-]. split_and!; try done.
    + exists (Document.updatedAt doc). by destruct doc.
    + unfold view. destruct (pending s) as [p|]; [|done].
      injection Hb as ->. apply lookup_write_same.
    + destruct (pending s) as [p|]; [left|by right]. by injection Hb as ->.
  - destruct (saveFails env site); [done|]. intros [= <- <-].
    split_and!; try done; [by eexists| |by left].
    unfold view. simpl. apply (lookup_write_same (Document.set_timestamps _ _ doc)).
Qed.

Lemma commitTransaction_inr env s u s' :
  commitTransaction env s = (inr u, s') →
  commitFails env = false
  ∧ activities (db s') = activities (db s)
  ∧ documents (db s') =
      match pending s with
      | Some doc => write doc (documents (db s))
      | None => documents (db s)
      end
  ∧ (∀ id, lookup id (documents (db s')) = view s id).
Proof.
  unfold commitTransaction, publish, view.
  destruct (commitFails env); [done|]. intros [= <- <-].
  by destruct (pending s).
Qed.

(** [logActivity] always returns; the record is appended when it is valid
    and the write goes through. *)
Lemma logActivity_run env action doc user n changes p q s :
  logActivity env action doc user n changes p q s =
    (inr tt,
     if Activity.valid (activityRecord env action doc user n changes p q)
        && negb (activityWriteFails env)
     then {| db := {| documents := documents (db s);
                      activities := activities (db s) ++
                        [activityRecord env action doc user n changes p q] |};
             pending := pending s |}
     else s).
Proof.
  unfold logActivity, tryCatch, Activity_create.
  destruct (Activity.valid _); simpl; [|done].
  by destruct (activityWriteFails env).
Qed.

(** ** Creation *)

Lemma aiAssist_inr env a b ai s s' :
  aiAssist env a b s = (inr ai, s') →
  ∃ embedding,
    Gemini.embedText (world env) b = Some embedding
    ∧ ai = (Gemini.summarizeText (world env) a,
            Gemini.generateTags (world env) b 6, embedding)
    ∧ s' = s.
Proof.
  unfold aiAssist. destruct (Gemini.embedText _ _) as [embedding|]; [|done].
  intros [= <- <-]. by exists embedding.
Qed.

Lemma createDocument_201 env user body d :
  status (createDocument env user body d).1 = 201 →
  ∃ title content embedding,
    truthy (Body.title body) = Some title
    ∧ truthy (Body.content body) = Some content
    ∧ Gemini.embedText (world env) (lines title content) = Some embedding
    ∧ lookup (newObjectId env) (documents d) = None
    ∧ let doc := createdDocument env user title content
                   (createdTags env title content body) embedding in
      createDocument env user body d =
        ({| status := 201; json := DocumentJson (Some doc) |},
         {| documents := documents d ++ [doc];
            activities :=
              activities d ++
                if activityWriteFails env then []
                else [activityRecord env Activity.created doc user None
                        noChanges None None] |}).
Proof.
  intros H. unfold createDocument in *.
  apply handle_status in H as (r & s & Hrun & -> & Hr); [|done].
  destruct (truthy (Body.title body)) as [title|] eqn:Ht;
    [destruct (truthy (Body.content body)) as [content|] eqn:Hc|].
  2,3: apply bind_inr in Hrun as (? & ? & _ & [= <- <-]); done.
  apply bind_inr in Hrun as (ai & s1 & Hai & Hrun).
  apply aiAssist_inr in Hai as (embedding & He & -> & ->).
  cbv zeta beta iota in Hrun.
  apply bind_inr in Hrun as (doc & s2 & Hsave & Hrun).
  apply save_new_inr in Hsave as (Hvalid & Hnew & Hdoc & ->).
  apply bind_inr in Hrun as ([] & s3 & Hlog & Hrun).
  rewrite logActivity_run in Hlog. injection Hlog as <-.
  apply bind_inr in Hrun as ([] & s4 & Hcommit & Hrun).
  apply bind_inr in Hrun as (saved & s5 & Hfind & Hrun).
  apply ret_inr in Hrun as [<- <-]. injection Hfind as <- <-.
  exists title, content, embedding. split_and!; try done.
  cbv zeta. fold (createdTags env title content body) in *.
  fold (createdDocument env user title content
          (createdTags env title content body) embedding) in *.
  subst doc. clear Hr.
  set (doc := createdDocument env user title content
          (createdTags env title content body) embedding) in *.
  assert (Activity.valid
            (activityRecord env Activity.created doc
               user None noChanges None None) = true) as Hav.
  { unfold Document.valid in Hvalid.
    by apply andb_true_iff in Hvalid as [Hvalid _]. }
  assert (Document._id doc = newObjectId env) as Hid by done.
  rewrite Hav in Hcommit. cbn [andb] in Hcommit.
  unfold commitTransaction, publish in Hcommit.
  destruct (commitFails env); [done|]. injection Hcommit as <-.
  simpl in Hnew.
  destruct (activityWriteFails env); cbn [negb pending db documents activities];
    unfold write; rewrite ?Hid; rewrite Hnew;
    rewrite (lookup_app_new _ doc) by done; by rewrite ?app_nil_r.
Qed.




(** ** Versions *)

(** What [computeDiffs] does to the literal of [createVersion]: with a
    previous entry and any flag set, the first assignment through the missing
    [diff] property throws; otherwise the literal is returned untouched. *)
Lemma computeDiffs_literal env changes this v s :
  Version.diff v = None →
  computeDiffs env changes this v s =
    (if bool_decide (Document.versions this ≠ []) && Changes.some changes
     then inl TypeError else inr v, s).
Proof.
  intros Hv. unfold computeDiffs, Changes.some.
  destruct (last (Document.versions this)) as [prev|] eqn:Hlast.
  - rewrite bool_decide_eq_true_2 by (by intros Hnil; rewrite Hnil in Hlast).
    unfold bind, assignDiff, throw, ret. rewrite Hv.
    destruct (Changes.title changes), (Changes.content changes),
      (Changes.tags changes), (Changes.summary changes); simpl; try done;
      by rewrite ?Hv.
  - apply last_None in Hlast. by rewrite bool_decide_eq_false_2 by naive_solver.
Qed.

Lemma slice_last_short {A} n (l : list A) :
  (length l ≤ n)%nat → slice_last n l = l.
Proof.
  intros H. unfold slice_last. by replace (length l - n)%nat with 0%nat by lia.
Qed.

(** The ledger append in one equation: the last 10 of the old entries
    followed by the new one. *)
Lemma pushVersion_eq v this :
  pushVersion v this =
    Document.set_versions (slice_last 10 (Document.versions this ++ [v])) this.
Proof.
  unfold pushVersion. cbv zeta. case_bool_decide as H; simpl in *.
  - by destruct this.
  - rewrite slice_last_short by lia. by destruct this.
Qed.

Lemma createVersion_run env user changes this s :
  createVersion env user changes this s =
    if bool_decide (Document.versions this ≠ []) && Changes.some changes
    then (inl TypeError, s)
    else
      bind
        (save env InCreateVersion false
           (pushVersion (versionLiteral user changes (bumped user this))
              (bumped user this)))
        (λ this', ret (this', versionLiteral user changes (bumped user this)))
        s.
Proof.
  unfold createVersion. cbv zeta. unfold bind at 1.
  rewrite computeDiffs_literal by done.
  change (Document.versions (bumped user this)) with (Document.versions this).
  by destruct (bool_decide _ && _).
Qed.

(** The slip of [createVersion]: on a document whose ledger is not empty,
    a call with any flag set throws before anything is pushed or saved. *)
Lemma createVersion_throws env user changes this s :
  Document.versions this ≠ [] → Changes.some changes = true →
  createVersion env user changes this s = (inl TypeError, s).
Proof.
  intros Hv Hc. rewrite createVersion_run, Hc.
  by rewrite bool_decide_eq_true_2.
Qed.

Lemma createVersion_inr env user changes this s this' v s' :
  createVersion env user changes this s = (inr (this', v), s') →
  (Document.versions this = [] ∨ Changes.some changes = false)
  ∧ v = versionLiteral user changes (bumped user this)
  ∧ (∃ u, this' = Document.set_timestamps (Document.createdAt this) u
                    (pushVersion v (bumped user this)))
  ∧ db s' = db s
  ∧ view s' (Document._id this) = Some this'.
Proof.
  rewrite createVersion_run.
  destruct (bool_decide _ && _) eqn:Hthrow; [done|].
  intros H. apply bind_inr in H as (saved & s1 & Hsave & Hret).
  apply ret_inr in Hret as [[= <- <-] <-].
  apply save_inr in Hsave as (_ & Hdb & Hu & Hview & _).
  split_and!; try done.
  - apply andb_false_iff in Hthrow as [Hv|Hc]; [left|by right].
    apply bool_decide_eq_false in Hv. by apply dec_stable in Hv.
  - destruct Hu as [u ->]. exists u. by rewrite pushVersion_eq.
  - rewrite <- Hview. f_equal. by rewrite pushVersion_eq.
Qed.

(** ** Updates *)

Lemma applyPatch_keeps body doc :
  Document._id (applyPatch body doc) = Document._id doc
  ∧ Document.versions (applyPatch body doc) = Document.versions doc
  ∧ Document.currentVersion (applyPatch body doc) = Document.currentVersion doc
  ∧ Document.tags (applyPatch body doc) =
      default (Document.tags doc) (Body.tags body).
Proof.
  unfold applyPatch.
  by destruct (Body.title body), (Body.content body), (Body.tags body).
Qed.

Lemma recomputeAI_inr env body doc doc1 changes1 s s' :
  recomputeAI env body (applyPatch body doc) (trackChanges body doc) s
    = (inr (doc1, changes1), s') →
  s' = s
  ∧ Document._id doc1 = Document._id doc
  ∧ Document.versions doc1 = Document.versions doc
  ∧ Document.currentVersion doc1 = Document.currentVersion doc
  ∧ Document.tags doc1 = updatedTags env body doc.
Proof.
  destruct (applyPatch_keeps body doc) as (Hid & Hv & Hc & Ht).
  unfold recomputeAI, updatedTags.
  destruct (Changes.content _ || Changes.title _).
  - intros H. apply bind_inr in H as (ai & s1 & Hai & H).
    apply aiAssist_inr in Hai as (embedding & _ & -> & ->).
    cbv zeta beta iota in H. rewrite <- Hid, <- Hv, <- Hc.
    destruct (Body.tags body) as [tags|] eqn:Htags;
      apply ret_inr in H as [[= <- <-] <-]; simpl in *; rewrite ?Ht; done.
  - intros H. apply ret_inr in H as [[= <- <-] <-].
    rewrite Ht. by destruct (Body.tags body).
Qed.

Lemma versionIfChanged_inr env user prev doc changes doc2 s s' :
  versionIfChanged env user prev doc changes s = (inr doc2, s') →
  documents (db s') = documents (db s)
  ∧ if Changes.some changes then
      Document.versions doc = []
      ∧ (∃ u, doc2 = Document.set_timestamps (Document.createdAt doc) u
                       (pushVersion
                          (versionLiteral user changes (bumped user doc))
                          (bumped user doc)))
      ∧ view s' (Document._id doc) = Some doc2
      ∧ ∃ a, Activity.action a = Activity.updated
             ∧ Activity.document a = Document._id doc
             ∧ activities (db s') =
                 activities (db s) ++
                   if Activity.valid a && negb (activityWriteFails env)
                   then [a] else []
    else doc2 = doc ∧ s' = s.
Proof.
  unfold versionIfChanged. destruct (Changes.some changes) eqn:Hsome.
  - intros H. apply bind_inr in H as ([this' v] & s1 & Hcv & H).
    apply createVersion_inr in Hcv as (Hnil & -> & [u ->] & Hdb & Hview).
    cbv zeta in H. apply bind_inr in H as ([] & s2 & Hlog & H).
    apply ret_inr in H as [<- <-].
    rewrite logActivity_run in Hlog. injection Hlog as <-.
    destruct Hnil as [Hnil|]; [|congruence].
    set (a := activityRecord _ _ _ _ _ _ _ _).
    assert (Activity.document a = Document._id doc) as Ha
      by (unfold a; simpl; by rewrite pushVersion_eq).
    destruct (Activity.valid a && negb (activityWriteFails env)) eqn:Hok;
      simpl; rewrite Hdb.
    + split_and!; try done; [by eexists| |].
      * unfold view in *. simpl. by rewrite <- Hdb.
      * exists a. by rewrite Hok.
    + split_and!; try done; [by eexists|].
      exists a. by rewrite Hok, app_nil_r.
  - intros H. by apply ret_inr in H as [<- <-].
Qed.

Lemma updateDocument_200 env user id body d :
  status (updateDocument env user id body d).1 = 200 →
  ∃ doc doc1 changes doc2 u,
    lookup id (documents d) = Some doc
    ∧ canModify user doc = true
    ∧ recomputeAI env body (applyPatch body doc) (trackChanges body doc)
        {| db := d; pending := None |}
      = (inr (doc1, changes), {| db := d; pending := None |})
    ∧ (if Changes.some changes then
         Document.versions doc = []
         ∧ ∃ u', doc2 = Document.set_timestamps (Document.createdAt doc1) u'
                          (pushVersion
                             (versionLiteral user changes (bumped user doc1))
                             (bumped user doc1))
       else doc2 = doc1)
    ∧ let doc' :=
        Document.set_timestamps (Document.createdAt doc2) u
          (Document.set_lastUpdatedBy (User._id user) doc2) in
      (updateDocument env user id body d).1 =
        {| status := 200; json := DocumentJson (Some doc') |}
      ∧ lookup id (documents (updateDocument env user id body d).2) = Some doc'
      ∧ (documents (updateDocument env user id body d).2 = documents d
         ∨ documents (updateDocument env user id body d).2
           = write doc' (documents d)).
Proof.
  intros H. unfold updateDocument in *.
  apply handle_status in H as (r & s & Hrun & -> & Hr); [|done].
  apply bind_inr in Hrun as (found & s0 & [= <- <-] & Hrun).
  simpl in Hrun. destruct (lookup id (documents d)) as [doc|] eqn:Hdoc.
  2: { apply bind_inr in Hrun as (? & ? & _ & [= <- <-]). done. }
  pose proof (lookup_Some_id _ _ _ Hdoc) as Hid.
  destruct (canModify user doc) eqn:Hcan; simpl in Hrun.
  2: { apply bind_inr in Hrun as (? & ? & _ & [= <- <-]). done. }
  cbv zeta in Hrun.
  apply bind_inr in Hrun as ([doc1 changes] & s1 & Hre & Hrun).
  destruct (recomputeAI_inr _ _ _ _ _ _ _ Hre) as (-> & Hid1 & Hv1 & Hc1 & Ht1).
  apply bind_inr in Hrun as (doc2 & s2 & Hver & Hrun).
  apply versionIfChanged_inr in Hver as (Hdocs2 & Hver).
  cbv zeta in Hrun.
  apply bind_inr in Hrun as (doc3 & s3 & Hsave & Hrun).
  apply save_inr in Hsave as (_ & Hdb3 & [u ->] & Hview & Hpend).
  apply bind_inr in Hrun as ([] & s4 & Hcommit & Hrun).
  apply commitTransaction_inr in Hcommit as (_ & _ & Hdocs & Hlook).
  apply bind_inr in Hrun as (updated & s5 & [= <- <-] & Hrun).
  apply ret_inr in Hrun as [<- <-]. simpl.
  assert (Document._id doc2 = id) as Hid2.
  { destruct (Changes.some changes).
    - destruct Hver as (_ & [u' ->] & _). rewrite pushVersion_eq. simpl. congruence.
    - destruct Hver as [-> _]. congruence. }
  simpl in Hview. rewrite Hid2 in Hview.
  exists doc, doc1, changes, doc2, u. split_and!; try done.
  - destruct (Changes.some changes); [|by destruct Hver].
    destruct Hver as (Hnil & Hu & _). split; [congruence|done].
  - cbv zeta. simpl. by rewrite Hid2, Hlook, Hview.
  - by rewrite Hlook, Hview.
  - rewrite Hdocs, Hdb3, Hdocs2. simpl.
    destruct Hpend as [->| ->]; [by right|by left].
Qed.

Lemma trackChanges_unchanged body doc :
  unchangedPatch body doc → trackChanges body doc = noChanges.
Proof.
  intros (Ht & Hc & Hg). unfold trackChanges, noChanges.
  destruct (Body.title body) as [t|]; [rewrite (Ht t eq_refl)|];
    destruct (Body.content body) as [c|]; [rewrite (Hc c eq_refl)| |rewrite (Hc c eq_refl)|];
    destruct (Body.tags body) as [g|]; rewrite ?(Hg g eq_refl);
    by rewrite ?bool_decide_eq_false_2 by naive_solver.
Qed.

(** With nothing to change, an update is a save and a commit. *)
Lemma updateDocument_unchanged_run env user id body d doc :
  lookup id (documents d) = Some doc → canModify user doc = true →
  unchangedPatch body doc →
  updateDocument env user id body d =
    handle
      (doc <- save env InController false
                (Document.set_lastUpdatedBy (User._id user)
                   (applyPatch body doc)) ;;
       commitTransaction env ;;
       updatedDoc <- findById (Document._id doc) ;;
       ret {| status := 200; json := DocumentJson updatedDoc |})
      (λ _, reply 500 "Failed to update document") d.
Proof.
  intros Hdoc Hcan Hun. unfold updateDocument, handle.
  unfold bind at 1. unfold findById at 1. cbn [db documents fst snd].
  rewrite Hdoc, Hcan. cbn [negb]. cbv zeta.
  rewrite (trackChanges_unchanged _ _ Hun).
  unfold recomputeAI, versionIfChanged, noChanges.
  cbn [Changes.content Changes.title orb].
  unfold bind at 1. unfold ret at 1.
  unfold bind at 1.
  cbn [Changes.some Changes.content Changes.title Changes.tags
         Changes.summary orb].
  unfold ret at 1. reflexivity.
Qed.

(** C4 (as amended). For an existing document and an authorized caller, an
    update whose patch values are identical to the current ones, tags
    compared as ordered sequences (the comparison of their JSON
    serialisations), appends no ledger entry, leaves the version counter
    alone and writes no activity record. *)
Theorem identical_update_is_noop env user id body d doc :
  lookup id (documents d) = Some doc →
  canModify user doc = true →
  unchangedPatch body doc →
  activities (updateDocument env user id body d).2 = activities d
  ∧ ∃ doc',
      lookup id (documents (updateDocument env user id body d).2) = Some doc'
      ∧ Document.versions doc' = Document.versions doc
      ∧ Document.currentVersion doc' = Document.currentVersion doc.
Proof.
  intros Hdoc Hcan Hun. split.
  - rewrite (updateDocument_unchanged_run _ _ _ _ _ _ Hdoc Hcan Hun).
    apply handle_log. silent_auto.
  - destruct (decide (status (updateDocument env user id body d).1 = 200))
      as [Hok|Hko].
    + destruct (updateDocument_200 _ _ _ _ _ Hok)
        as (doc0 & doc1 & changes & doc2 & u & Hdoc0 & _ & Hre & Hver & _ & Hl & _).
      rewrite Hdoc in Hdoc0. injection Hdoc0 as <-.
      pose proof (recomputeAI_inr _ _ _ _ _ _ _ Hre) as (_ & _ & Hv1 & Hc1 & _).
      rewrite (trackChanges_unchanged _ _ Hun) in Hre.
      unfold recomputeAI, noChanges in Hre. simpl in Hre.
      apply ret_inr in Hre as [[= <- <-] _]. simpl in Hver. subst doc2.
      eexists. split; [exact Hl|]. simpl. by rewrite Hv1, Hc1.
    + exists doc. split; [|done].
      pose proof (route_rollback env user (Update id body) d Hko) as Hkeep.
      simpl in Hkeep. by rewrite Hkeep.
Qed.

(** ** Tags *)

Lemma mergeTags_length a b : (length (mergeTags a b) ≤ 10)%nat.
Proof. unfold mergeTags, slice_to. rewrite length_take. lia. Qed.


Lemma saveNow_inr env site doc s doc' s' :
  saveNow env site doc s = (inr doc', s') →
  (∃ u, doc' = Document.set_timestamps (Document.createdAt doc) u doc)
  ∧ lookup (Document._id doc) (documents (db s')) = Some doc'.
Proof.
  unfold saveNow. intros H. apply bind_inr in H as (saved & s1 & Hsave & H).
  injection H as <- <-. apply save_inr in Hsave as (_ & _ & Hu & Hview & _).
  split; [done|]. rewrite <- Hview. unfold view, publish. simpl.
  by destruct (pending s1).
Qed.




(** ** Deletion and restoration *)

Lemma deleteDocument_200 env user id d :
  status (deleteDocument env user id d).1 = 200 →
  ∃ doc u,
    lookup id (documents d) = Some doc
    ∧ canModify user doc = true
    ∧ let doc' :=
        Document.set_timestamps (Document.createdAt doc) u
          (Document.set_isDeleted true doc) in
      lookup id (documents (deleteDocument env user id d).2) = Some doc'
      ∧ (documents (deleteDocument env user id d).2 = documents d
         ∨ documents (deleteDocument env user id d).2
           = write doc' (documents d)).
Proof.
  intros H. unfold deleteDocument in *.
  apply handle_status in H as (r & s & Hrun & -> & Hr); [|done].
  apply bind_inr in Hrun as (found & s0 & [= <- <-] & Hrun).
  simpl in Hrun. destruct (lookup id (documents d)) as [doc|] eqn:Hdoc.
  2: { apply bind_inr in Hrun as (? & ? & _ & [= <- <-]). done. }
  pose proof (lookup_Some_id _ _ _ Hdoc) as Hid.
  destruct (canModify user doc) eqn:Hcan; simpl in Hrun.
  2: { apply bind_inr in Hrun as (? & ? & _ & [= <- <-]). done. }
  apply bind_inr in Hrun as ([] & s1 & Hlog & Hrun).
  rewrite logActivity_run in Hlog. injection Hlog as <-.
  apply bind_inr in Hrun as (doc' & s2 & Hsave & Hrun).
  apply save_inr in Hsave as (_ & Hdb2 & [u ->] & Hview & Hpend).
  apply bind_inr in Hrun as ([] & s3 & Hcommit & Hrun).
  apply commitTransaction_inr in Hcommit as (_ & _ & Hdocs & Hlook).
  apply ret_inr in Hrun as [<- <-]. simpl in *.
  exists doc, u. split_and!; try done; cbv zeta.
  - by rewrite Hlook, <- Hid, Hview.
  - rewrite Hdocs, Hdb2.
    destruct Hpend as [->| ->]; [right|left];
      by destruct (Activity.valid _ && negb _).
Qed.

(** As written, no restore ever answers with success: the target entry is in
    the ledger, so [createVersion] meets a previous entry with all four flags
    set and throws. *)
Lemma restoreVersion_not_200 env user id versionNumber d :
  status (restoreVersion env user id versionNumber d).1 ≠ 200.
Proof.
  intros H. unfold restoreVersion in *.
  apply handle_status in H as (r & s & Hrun & _ & Hr); [|done].
  apply bind_inr in Hrun as (found & s0 & [= <- <-] & Hrun).
  simpl in Hrun. destruct (lookup id (documents d)) as [doc|] eqn:Hdoc.
  2: { apply bind_inr in Hrun as (? & ? & _ & [= <- <-]). done. }
  destruct (canModify user doc) eqn:Hcan; simpl in Hrun.
  2: { apply bind_inr in Hrun as (? & ? & _ & [= <- <-]). done. }
  destruct (find _ _) as [T|] eqn:Hfind.
  2: { apply bind_inr in Hrun as (? & ? & _ & [= <- <-]). done. }
  apply bind_inr in Hrun as ([this' v] & s1 & Hcv & _).
  apply createVersion_inr in Hcv as ([Hnil|Hsome] & _); [|done].
  by rewrite Hnil in Hfind.
Qed.

(** ** The ledger *)

Lemma slice_last_length {A} n (l : list A) : (length (slice_last n l) ≤ n)%nat.
Proof. unfold slice_last. rewrite length_drop. lia. Qed.

Lemma slice_last_suffix {A} n (l : list A) :
  l = take (length l - n) l ++ slice_last n l.
Proof. unfold slice_last. by rewrite take_drop. Qed.

Lemma pushVersion_length v this :
  (length (Document.versions (pushVersion v this)) ≤ 10)%nat.
Proof. rewrite pushVersion_eq. apply slice_last_length. Qed.

Lemma lookup_elem_of id docs doc : lookup id docs = Some doc → doc ∈ docs.
Proof.
  unfold lookup. intros H. apply find_some in H as [H _].
  by apply list_elem_of_In.
Qed.

Lemma write_Forall (P : Document.t → Prop) doc docs :
  (∀ x, x ∈ docs → P x) → P doc → ∀ x, x ∈ write doc docs → P x.
Proof.
  intros Hdocs Hdoc x. unfold write. destruct (lookup _ docs).
  - intros Hx. apply list_elem_of_fmap in Hx as (y & -> & Hy).
    case_bool_decide; auto.
  - intros Hx. apply elem_of_app in Hx as [Hx|Hx]; [auto|].
    apply list_elem_of_singleton in Hx. by subst.
Qed.

Lemma route_ledgersBounded env user m d :
  ledgersBounded d → ledgersBounded (route env user m d).2.
Proof.
  intros Hd.
  destruct (decide (status (route env user m d).1 = successStatus m))
    as [Hok|Hko].
  2: { unfold ledgersBounded. by rewrite (route_rollback _ _ _ _ Hko). }
  destruct m as [body|id body|id|id n]; simpl in *.
  - destruct (createDocument_201 _ _ _ _ Hok)
      as (title & content & embedding & _ & _ & _ & _ & Heq).
    cbv zeta in Heq. rewrite Heq. intros x Hx. simpl in Hx.
    apply elem_of_app in Hx as [Hx|Hx]; [by apply Hd|].
    apply list_elem_of_singleton in Hx. subst x. simpl. lia.
  - destruct (updateDocument_200 _ _ _ _ _ Hok)
      as (doc & doc1 & changes & doc2 & u & Hdoc & _ & Hre & Hver & _ & _ & Hdocs).
    apply recomputeAI_inr in Hre as (_ & _ & Hv1 & _).
    unfold ledgersBounded.
    destruct Hdocs as [-> | ->]; [done|]. apply write_Forall; [done|]. simpl.
    destruct (Changes.some changes).
    + destruct Hver as (_ & [u' ->]). apply pushVersion_length.
    + subst doc2. rewrite Hv1. by apply Hd, (lookup_elem_of id).
  - destruct (deleteDocument_200 _ _ _ _ Hok)
      as (doc & u & Hdoc & _ & _ & Hdocs).
    unfold ledgersBounded.
    destruct Hdocs as [-> | ->]; [done|]. apply write_Forall; [done|]. simpl.
    by apply Hd, (lookup_elem_of id).
  - by destruct (restoreVersion_not_200 _ _ _ _ _ Hok).
Qed.

Lemma slice_last_app {A} n (l vs : list A) :
  slice_last n (slice_last n l ++ vs) = slice_last n (l ++ vs).
Proof.
  unfold slice_last. rewrite !length_app, length_drop.
  destruct (decide (length l ≤ n)%nat) as [Hle|Hgt].
  - replace (length l - n)%nat with 0%nat by lia. simpl.
    by rewrite Nat.sub_0_r.
  - replace (length l - (length l - n) + length vs - n)%nat
      with (length vs) by lia.
    replace (length l + length vs - n)%nat
      with ((length l - n) + length vs)%nat by lia.
    rewrite <- drop_drop. by rewrite (drop_app_le l vs) by lia.
Qed.

(** After any run of appends the ledger is the last 10 of all its entries. *)
Lemma appends_keep_last_ten this vs :
  (length (Document.versions this) ≤ 10)%nat →
  Document.versions (foldl (λ doc v, pushVersion v doc) this vs)
  = slice_last 10 (Document.versions this ++ vs).
Proof.
  revert this. induction vs as [|v vs IH]; intros this Hlen; simpl.
  - by rewrite app_nil_r, slice_last_short.
  - rewrite IH by apply pushVersion_length.
    rewrite pushVersion_eq. simpl. rewrite slice_last_app.
    by rewrite <- (assoc_L (++)).
Qed.

(** C3 (as amended). The ledger is a bounded FIFO: an append leaves the last
    10 of the previous entries followed by the new one, so it never holds
    more than 10 entries and what it evicts are the oldest entries; after any
    run of appends the ledger is the last 10 of everything it was given;
    whenever [createVersion] returns, the document it leaves has that ledger
    and the new entry carries the incremented version counter; and no
    mutation ever makes a stored ledger exceed 10 entries. *)
Theorem ledger_is_bounded_fifo :
  (∀ v this,
     Document.versions (pushVersion v this)
       = slice_last 10 (Document.versions this ++ [v])
     ∧ (length (Document.versions (pushVersion v this)) ≤ 10)%nat
     ∧ Document.versions this ++ [v]
         = take (length (Document.versions this) + 1 - 10)
             (Document.versions this ++ [v])
           ++ Document.versions (pushVersion v this))
  ∧ (∀ this vs,
       (length (Document.versions this) ≤ 10)%nat →
       Document.versions (foldl (λ doc v, pushVersion v doc) this vs)
       = slice_last 10 (Document.versions this ++ vs))
  ∧ (∀ env user changes this s this' v s',
       createVersion env user changes this s = (inr (this', v), s') →
       Document.versions this'
         = slice_last 10 (Document.versions this ++ [v])
       ∧ Version.versionNumber v = Document.currentVersion this + 1
       ∧ Document.currentVersion this' = Document.currentVersion this + 1)
  ∧ (∀ env user m d,
       ledgersBounded d → ledgersBounded (route env user m d).2).
Proof.
  split_and!.
  - intros v this. rewrite pushVersion_eq. simpl. split_and!; [done| |].
    + apply slice_last_length.
    + rewrite (slice_last_suffix 10 (Document.versions this ++ [v])) at 1.
      by rewrite length_app.
  - apply appends_keep_last_ten.
  - intros env user changes this s this' v s' H.
    apply createVersion_inr in H as (_ & -> & [u ->] & _).
    rewrite pushVersion_eq. done.
  - apply route_ledgersBounded.
Qed.


(** ** Properties of the AI fallbacks *)

Lemma summarizeText_degraded w text :
  Gemini.summaryDegraded w text →
  Gemini.summarizeText w text = Gemini.truncated text.
Proof.
  unfold Gemini.summaryDegraded, Gemini.summarizeText.
  destruct (Gemini.genAI w) as [client|]; [|done].
  by intros ->.
Qed.

(** C10. When the AI collaborator is unavailable or its call fails,
    [summarizeText text] is [text] itself for every text of at most 220 code
    units, and otherwise the first 200 code units followed by the single
    character U+2026; in particular a text of 201 to 220 code units comes
    back whole. *)
Theorem summarizeText_fallback (w : Gemini.World) (text : jsstring) :
  Gemini.summaryDegraded w text →
  ((length text ≤ 220)%nat → Gemini.summarizeText w text = text)
  ∧ ((220 < length text)%nat →
       Gemini.summarizeText w text = take 200 text ++ [Gemini.ellipsis]
       ∧ length (Gemini.summarizeText w text) = 201%nat)
  ∧ ((201 ≤ length text ≤ 220)%nat → Gemini.summarizeText w text = text).
Proof.
  intros Hdeg. rewrite (summarizeText_degraded _ _ Hdeg).
  unfold Gemini.truncated, slice_to.
  split_and!.
  - intros Hlen. rewrite bool_decide_eq_false_2; [done|lia].
  - intros Hlen. rewrite bool_decide_eq_true_2 by done.
    split; [done|]. rewrite length_app, length_take. cbn [length]. lia.
  - intros [_ Hlen]. rewrite bool_decide_eq_false_2; [done|lia].
Qed.

(** ** The listing *)

(** The filter of the listing never looks at [isDeleted]. *)
Lemma matches_ignores_isDeleted env user query doc b :
  matches env user query (Document.set_isDeleted b doc)
  = matches env user query doc.
Proof. reflexivity. Qed.

(** A successful delete keeps the record and its ledger: only the deletion
    flag and the timestamp change. *)
Lemma deleteDocument_keeps_record env user id d :
  status (deleteDocument env user id d).1 = 200 →
  ∃ doc doc',
    lookup id (documents d) = Some doc
    ∧ lookup id (documents (deleteDocument env user id d).2) = Some doc'
    ∧ Document.isDeleted doc' = true
    ∧ Document.versions doc' = Document.versions doc
    ∧ Document.snapshot doc' = Document.snapshot doc
    ∧ Document.currentVersion doc' = Document.currentVersion doc.
Proof.
  intros H. destruct (deleteDocument_200 _ _ _ _ H) as (doc & u & Hd & _ & Hd' & _).
  eexists doc, _. split_and!; [done|exact Hd'|done..].
Qed.

(** C7, on the code. Alice creates the runbook and deletes it: the delete
    succeeds, the record stays with its ledger and its deletion flag set, and
    the default listing still returns it. *)
Theorem listing_returns_soft_deleted :
  status (deleteDocument (Example.at_time 2) Example.alice 1 Example.created).1
    = 200
  ∧ (Document.isDeleted <$> lookup 1 (documents Example.deleted)) = Some true
  ∧ (Document.versions <$> lookup 1 (documents Example.deleted))
    = (Document.versions <$> lookup 1 (documents Example.created))
  ∧ Example.actions Example.deleted = [Activity.created; Activity.deleted]
  ∧ getDocuments (Example.at_time 3) Example.alice Query.default
      Example.deleted
    = {| status := 200; json := DocumentsJson (documents Example.deleted) |}
  ∧ (Document.isDeleted <$> documents Example.deleted) = [true].
Proof. vm_compute. done. Qed.

(** ** The tags of the controller without versioning *)

Lemma setFrom_elem_of seen xs x :
  x ∈ setFrom seen xs ↔ x ∈ xs ∧ x ∉ seen.
Proof.
  revert seen. induction xs as [|y xs IH]; intros seen; simpl.
  - split; [by intros ?%elem_of_nil|by intros [?%elem_of_nil _]].
  - case_bool_decide as Hy.
    + rewrite IH, elem_of_cons. split; [tauto|].
      intros [[->|Hx] Hs]; [done|tauto].
    + rewrite !elem_of_cons, IH, elem_of_cons.
      destruct (decide (x = y)) as [->|Hxy]; [tauto|]. tauto.
Qed.

Lemma setFrom_NoDup seen xs : NoDup (setFrom seen xs).
Proof.
  revert seen. induction xs as [|y xs IH]; intros seen; simpl.
  - constructor.
  - case_bool_decide; [apply IH|]. constructor; [|apply IH].
    rewrite setFrom_elem_of, elem_of_cons. tauto.
Qed.

(** That controller does what C5 says: the distinct elements of the caller's
    tags followed by the AI tags, cut at 10. *)
Lemma legacyCreatedTags_merges env title content body :
  let caller := default [] (Body.tags body) in
  let auto := Gemini.generateTags (world env) (lines title content) 6 in
  legacyCreatedTags env title content body
    = take 10 (arrayFromSet (caller ++ auto))
  ∧ NoDup (arrayFromSet (caller ++ auto))
  ∧ (∀ x, x ∈ arrayFromSet (caller ++ auto) ↔ x ∈ caller ∨ x ∈ auto)
  ∧ (length (legacyCreatedTags env title content body) ≤ 10)%nat.
Proof.
  cbv zeta. split_and!.
  - done.
  - apply setFrom_NoDup.
  - intros x. unfold arrayFromSet. rewrite setFrom_elem_of, elem_of_app.
    split; [by intros [? _]|]. intros H. split; [done|]. by intros ?%elem_of_nil.
  - apply mergeTags_length.
Qed.

(** ** The claims at concrete requests *)

Lemma summarizeText_fallback_witness :
  Gemini.summaryDegraded Example.offline (str "Step one. Step two.")
  ∧ Gemini.summarizeText Example.offline (str "Step one. Step two.")
    = str "Step one. Step two.".
Proof.
  assert (Gemini.summaryDegraded Example.offline (str "Step one. Step two."))
    as H by exact I.
  split; [exact H|].
  apply (proj1 (summarizeText_fallback Example.offline
                  (str "Step one. Step two.") H)).
  apply Nat.leb_le. vm_compute. reflexivity.
Defined.





(** C3, on the code. The runbook is created with version 1 and edited 11
    times, each edit with a new content: every edit answers 500, the ledger
    still holds version 1 alone and no [updated] record exists. *)
Lemma eleven_updates_counterexample :
  let d := Example.edited 11 Example.created in
  Example.ledgers Example.created = [(1, [1], 4%nat)]
  ∧ status (updateDocument (Example.at_time 2) Example.alice 1
              (Example.edit 1) Example.created).1 = 500
  ∧ Example.ledgers d = [(1, [1], 4%nat)]
  ∧ Example.actions d = [Activity.created].
Proof. vm_compute. split_and!; done. Qed.

(** The ledger arithmetic behind C3: eleven appends onto a ledger that holds
    version 1 leave versions 3 to 12, the two oldest evicted. *)
Lemma eleven_appends_evict_two :
  (λ doc,
     Version.versionNumber <$>
       Document.versions
         (Nat.iter 11
            (λ this,
               pushVersion
                 (versionLiteral Example.alice Changes.all
                    (bumped Example.alice this))
                 (bumped Example.alice this))
            doc))
    <$> lookup 1 (documents Example.created)
  = Some [3; 4; 5; 6; 7; 8; 9; 10; 11; 12].
Proof. vm_compute. reflexivity. Qed.

Lemma ledger_is_bounded_fifo_witness :
  ∃ this' v s',
    createVersion (Example.at_time 2) Example.alice Changes.all
      Example.legacyDocument {| db := Example.legacy; pending := None |}
    = (inr (this', v), s')
    ∧ Document.versions this'
      = slice_last 10 (Document.versions Example.legacyDocument ++ [v])
    ∧ Version.versionNumber v = 2.
Proof.
  eexists _, _, _.
  match goal with
  | |- ?A ∧ _ => assert A as H by (vm_compute; reflexivity)
  end.
  destruct (proj1 (proj2 (proj2 ledger_is_bounded_fifo)) _ _ _ _ _ _ _ _ H)
    as (Hv & Hn & _).
  split_and!; [exact H|exact Hv|exact Hn].
Defined.

(** C4, on the code. A document with tags [a, b] and no ledger entry is
    sent the same tags as [b, a]: the update answers 200, appends a ledger
    entry, bumps the counter and writes an [updated] record. *)
Lemma reordered_tags_counterexample :
  let answer :=
    updateDocument (Example.at_time 2) Example.alice 1 Example.reordered
      Example.legacy in
  Body.tags Example.reordered = Some [str "b"; str "a"]
  ∧ Document.tags Example.legacyDocument = [str "a"; str "b"]
  ∧ [str "b"; str "a"] ≡ₚ [str "a"; str "b"]
  ∧ status answer.1 = 200
  ∧ Example.ledgers Example.legacy = [(1, [], 2%nat)]
  ∧ Example.ledgers answer.2 = [(2, [2], 2%nat)]
  ∧ Example.actions Example.legacy = []
  ∧ Example.actions answer.2 = [Activity.updated].
Proof.
  cbv zeta. split_and!; [reflexivity|reflexivity|apply perm_swap|..];
    vm_compute; reflexivity.
Qed.

Lemma identical_update_is_noop_witness :
  ∃ doc,
    lookup 1 (documents Example.created) = Some doc
    ∧ canModify Example.alice doc = true
    ∧ unchangedPatch Example.runbook doc
    ∧ activities
        (updateDocument (Example.at_time 2) Example.alice 1 Example.runbook
           Example.created).2
      = activities Example.created.
Proof.
  eexists.
  match goal with
  | |- ?A ∧ _ => assert A as H1 by (vm_compute; reflexivity)
  end.
  match goal with
  | |- _ ∧ ?B ∧ _ => assert B as H2 by (vm_compute; reflexivity)
  end.
  match goal with
  | |- _ ∧ _ ∧ ?C ∧ _ =>
      assert C as H3
        by (split_and!; intros ? [= <-]; vm_compute; reflexivity)
  end.
  split_and!; [exact H1|exact H2|exact H3|].
  exact (proj1 (identical_update_is_noop (Example.at_time 2) Example.alice 1
                  Example.runbook Example.created _ H1 H2 H3)).
Defined.







(** * Further properties of the controllers *)

(** ** Requests that are refused *)

Lemma canModify_true user doc :
  User.role user = str "admin" ∨ Document.createdBy doc = User._id user →
  canModify user doc = true.
Proof.
  unfold canModify. intros [H|H].
  - by rewrite (bool_decide_eq_true_2 _ H).
  - rewrite (bool_decide_eq_true_2 (_ = User._id user) H). apply orb_true_r.
Qed.

Lemma canModify_false user doc :
  User.role user ≠ str "admin" → Document.createdBy doc ≠ User._id user →
  canModify user doc = false.
Proof.
  unfold canModify. intros H1 H2.
  by rewrite (bool_decide_eq_false_2 _ H1), (bool_decide_eq_false_2 _ H2).
Qed.

(** Running a handler up to its first answer. *)
Ltac run_handler :=
  unfold updateDocument, deleteDocument, restoreVersion, forceSummarize,
    forceTags, handle, bind, findById, abortTransaction, ret; simpl.

(** X1. A caller who is neither an administrator nor the creator of the
    document gets 403 "Forbidden" from every modifying handler (update,
    delete, restore, forceSummarize, forceTags), whatever the request
    carries, and the database, documents and activity log, is exactly what
    it was. *)
Theorem forbidden_requests_change_nothing env user id doc d :
  lookup id (documents d) = Some doc →
  User.role user ≠ str "admin" →
  Document.createdBy doc ≠ User._id user →
  (∀ body, updateDocument env user id body d = (reply 403 "Forbidden", d))
  ∧ deleteDocument env user id d = (reply 403 "Forbidden", d)
  ∧ (∀ n, restoreVersion env user id n d = (reply 403 "Forbidden", d))
  ∧ forceSummarize env user id d = (reply 403 "Forbidden", d)
  ∧ forceTags env user id d = (reply 403 "Forbidden", d).
Proof.
  intros Hdoc Hrole Hcreator.
  pose proof (canModify_false _ _ Hrole Hcreator) as Hcan.
  split_and!; intros; run_handler; by rewrite Hdoc, Hcan.
Qed.


(** X3. A create whose title or content is missing or empty answers 400
    "Title and content are required" and leaves the database exactly as it
    was, whatever the AI wrappers and the database would have done. *)
Theorem create_requires_title_and_content env user body d :
  truthy (Body.title body) = None ∨ truthy (Body.content body) = None →
  createDocument env user body d
  = (reply 400 "Title and content are required", d).
Proof.
  intros H. unfold createDocument, handle.
  destruct H as [-> | ->]; [|destruct (truthy (Body.title body))]; done.
Qed.

(** X4. A create whose title is not empty but consists of white space only
    passes the [!title] test, is trimmed to the empty string by the schema
    and then fails the [required] validator: the answer is 500 "Failed to
    create document", not 400, and the database is exactly what it was. *)
Theorem blank_title_is_refused env user title content tags d :
  title ≠ [] → trim title = [] → content ≠ [] →
  createDocument env user (Body.mk (Some title) (Some content) tags) d
  = (reply 500 "Failed to create document", d).
Proof.
  intros Hne Hblank Hcontent. unfold createDocument, handle. simpl.
  destruct title as [|c title]; [done|].
  destruct content as [|c' content]; [done|]. cbn [truthy].
  unfold bind at 1, aiAssist.
  destruct (Gemini.embedText _ _); simpl; [|done].
  unfold bind at 1, save, Document.valid. simpl. by rewrite Hblank.
Qed.

(** ** What the missing [diff] of a new ledger entry costs *)

Lemma find_Some_nonempty {A} (f : A → bool) l x : find f l = Some x → l ≠ [].
Proof. by destruct l. Qed.

(** X5. No restore ever changes anything: whatever the caller, the id and
    the version asked for, [restoreVersion] answers 403, 404 or 500 and the
    database, documents and activity log, is exactly what it was. (A version
    to restore is an entry of the ledger, so [createVersion] finds a previous
    entry with all four flags set and throws before anything is written.) *)
Theorem restore_never_changes_the_database env user id versionNumber d :
  ∃ r, restoreVersion env user id versionNumber d = (r, d)
       ∧ (status r = 403 ∨ status r = 404 ∨ status r = 500).
Proof.
  unfold restoreVersion, handle, bind at 1, findById. simpl.
  destruct (lookup id (documents d)) as [doc|];
    [|eexists; split; [done|simpl; auto]].
  destruct (canModify user doc); simpl;
    [|eexists; split; [done|simpl; auto]].
  destruct (find _ _) as [T|] eqn:Hfind;
    [|eexists; split; [done|simpl; auto]].
  unfold bind at 1.
  rewrite createVersion_throws; [|by eapply find_Some_nonempty|done].
  eexists; split; [done|simpl; auto].
Qed.

Lemma recomputeAI_flags env body doc changes s doc1 changes1 s1 :
  recomputeAI env body doc changes s = (inr (doc1, changes1), s1) →
  s1 = s
  ∧ Document.versions doc1 = Document.versions doc
  ∧ (Changes.some changes = true → Changes.some changes1 = true).
Proof.
  unfold recomputeAI. destruct (_ || _) eqn:Hct.
  - intros H.
    apply bind_inr in H as ([[summary autoTags] embedding] & s0 & Hai & H).
    apply aiAssist_inr in Hai as (? & _ & _ & ->).
    destruct (Body.tags body); apply ret_inr in H as [[= <- <-] <-];
      (split_and!; [done..|]); intros _; unfold Changes.some; simpl;
      destruct (Changes.title changes), (Changes.content changes); done.
  - intros [[= <- <-] <-]%ret_inr. done.
Qed.

Lemma applyPatch_versions body doc :
  Document.versions (applyPatch body doc) = Document.versions doc.
Proof. apply applyPatch_keeps. Qed.

(** X6. Once a document has a ledger entry (every document created through
    [createDocument] has one), no update that changes its title, content or
    tags goes through: the authorized caller gets 500 "Failed to update
    document" and the database, documents and activity log, is exactly what
    it was. *)
Theorem update_of_versioned_document_fails env user id body d doc :
  lookup id (documents d) = Some doc →
  canModify user doc = true →
  Document.versions doc ≠ [] →
  Changes.some (trackChanges body doc) = true →
  updateDocument env user id body d
  = (reply 500 "Failed to update document", d).
Proof.
  intros Hdoc Hcan Hver Hsome.
  unfold updateDocument, handle, bind at 1, findById. simpl.
  rewrite Hdoc, Hcan. simpl. unfold bind at 1.
  destruct (recomputeAI _ _ _ _ _) as [[e|[doc1 changes1]] s1] eqn:Hre.
  - revert Hre. unfold recomputeAI. destruct (_ || _); [|done].
    unfold bind, aiAssist. destruct (Gemini.embedText _ _); simpl.
    + by destruct (Body.tags body).
    + by intros [= <- <-].
  - apply recomputeAI_flags in Hre as (-> & Hv1 & Hflags).
    unfold bind at 1, versionIfChanged. rewrite (Hflags Hsome).
    unfold bind at 1. rewrite createVersion_throws; [done| |by apply Hflags].
    by rewrite Hv1, applyPatch_versions.
Qed.

(** ** The activity log only grows *)

Lemma appends_quiet {A} P n (c : Tx A) : keeps sameLog c → appends P n c.
Proof.
  intros H s. exists []. rewrite app_nil_r.
  split_and!; [apply H|simpl; lia|done].
Qed.

Lemma appends_bind_quiet {A B} P n (c : Tx A) (k : A → Tx B) :
  keeps sameLog c → (∀ a, appends P n (k a)) → appends P n (bind c k).
Proof.
  intros Hc Hk s. unfold bind. specialize (Hc s). unfold sameLog in Hc.
  destruct (c s) as [[e|a] s1]; simpl in *.
  - exists []. rewrite app_nil_r. split_and!; [done|simpl; lia|done].
  - destruct (Hk a s1) as (l & Hl & ?). exists l. by rewrite Hl, Hc.
Qed.

Lemma appends_bind_then_quiet {A B} P n (c : Tx A) (k : A → Tx B) :
  appends P n c → (∀ a, keeps sameLog (k a)) → appends P n (bind c k).
Proof.
  intros Hc Hk s. unfold bind. destruct (Hc s) as (l & Hl & Hlen & HP).
  destruct (c s) as [[e|a] s1]; simpl in *.
  - by exists l.
  - exists l. specialize (Hk a s1). unfold sameLog in Hk. by rewrite Hk.
Qed.

Lemma appends_logActivity env action doc user n changes p q :
  appends (writtenBy env user) 1
    (logActivity env action doc user n changes p q).
Proof.
  intros s. rewrite logActivity_run. simpl.
  destruct (Activity.valid _ && negb _) eqn:Hok; simpl.
  - eexists [_]. split_and!; [done|simpl; lia|].
    apply Forall_singleton. apply andb_prop in Hok as [Hvalid _].
    unfold Activity.valid in Hvalid. apply negb_true_iff in Hvalid.
    apply bool_decide_eq_false in Hvalid. done.
  - exists []. rewrite app_nil_r. split_and!; [done|simpl; lia|done].
Qed.

(** Descent through code that does not write to the log, and through a
    handler body that logs once. *)
Ltac quiet_step :=
  lazymatch goal with
  | |- keeps _ (commitTransaction _) => apply keeps_commitTransaction_log
  | |- keeps _ (createVersion _ _ _ _) => apply keeps_createVersion; apply _
  | |- keeps _ (softDelete _ _) => apply keeps_softDelete; apply _
  | |- keeps _ _ => keeps_step
  end.

Ltac quiet := cbv zeta; repeat (quiet_step; cbv zeta).

Ltac appends_step :=
  lazymatch goal with
  | |- appends _ _ (bind (logActivity _ _ _ _ _ _ _ _) _) =>
      apply appends_bind_then_quiet;
        [apply appends_logActivity|intros ?; quiet]
  | |- appends _ _ (bind (versionIfChanged _ _ _ _ _) _) =>
      apply appends_bind_then_quiet; [unfold versionIfChanged|intros ?; quiet]
  | |- appends _ _ (bind _ _) => apply appends_bind_quiet; [quiet|intros ?]
  | |- appends _ _ (match ?x with _ => _ end) => destruct x
  | |- appends _ _ _ => apply appends_quiet; quiet
  end.

Ltac appends_auto := cbv zeta; repeat (appends_step; cbv zeta).

Lemma handle_appends P n body onError d :
  appends P n body →
  ∃ l, activities (handle body onError d).2 = activities d ++ l
       ∧ (length l ≤ n)%nat ∧ Forall P l.
Proof.
  intros H. unfold handle. specialize (H {| db := d; pending := None |}).
  by destruct (body _) as [[e|r] s].
Qed.

Lemma route_appends env user m d :
  ∃ l, activities (route env user m d).2 = activities d ++ l
       ∧ (length l ≤ 1)%nat
       ∧ Forall (writtenBy env user) l.
Proof. destruct m; simpl; apply handle_appends; appends_auto. Qed.

(** X7. The activity log is append-only: whatever a create, update, delete
    or restore request does and however it ends, the log afterwards is the
    log before followed by at most one new record, and that record names the
    caller as its user, carries the time of the request and a non-empty
    document title. *)
Theorem activity_log_is_append_only env user m d :
  ∃ l, activities (route env user m d).2 = activities d ++ l
       ∧ (length l ≤ 1)%nat
       ∧ Forall (writtenBy env user) l.
Proof.
  destruct m as [body|id body|id|id versionNumber]; simpl;
    apply handle_appends.
  - appends_auto.
  - appends_auto.
  - appends_auto.
  - appends_auto.
Qed.

(** ** What no mutation changes *)

Lemma sameRecord_refl doc : sameRecord doc doc.
Proof. unfold sameRecord. split_and!; done. Qed.

Lemma sameRecord_trans a b c : sameRecord a b → sameRecord b c → sameRecord a c.
Proof.
  unfold sameRecord. intros (? & ? & ? & ? & ?) (? & ? & ? & ? & ?).
  split_and!; try congruence; [lia|auto].
Qed.

Lemma recomputeAI_record env body doc changes s doc1 changes1 s1 :
  recomputeAI env body doc changes s = (inr (doc1, changes1), s1) →
  sameRecord doc doc1.
Proof.
  unfold recomputeAI. destruct (_ || _).
  - intros H.
    apply bind_inr in H as ([[summary autoTags] embedding] & s0 & Hai & H).
    destruct (Body.tags body); apply ret_inr in H as [[= <- <-] <-];
      unfold sameRecord; simpl; split_and!; done.
  - intros [[= <- <-] <-]%ret_inr. apply sameRecord_refl.
Qed.

Lemma applyPatch_record body doc : sameRecord doc (applyPatch body doc).
Proof.
  unfold applyPatch, sameRecord.
  destruct (Body.title body), (Body.content body), (Body.tags body);
    simpl; split_and!; done.
Qed.

Lemma lookup_write id doc' docs doc :
  lookup id docs = Some doc →
  (Document._id doc' = id → sameRecord doc doc') →
  ∃ doc'', lookup id (write doc' docs) = Some doc'' ∧ sameRecord doc doc''.
Proof.
  intros Hdoc Hsame. destruct (decide (Document._id doc' = id)) as [Hid|Hid].
  - exists doc'. split; [|auto]. rewrite <- Hid. apply lookup_write_same.
  - exists doc. split; [|apply sameRecord_refl].
    by rewrite lookup_write_other.
Qed.

(** X8. No create, update, delete or restore request removes a document or
    changes whose it is: every stored document is still stored under its id
    afterwards, with the same creator and creation time, a version counter
    that has not gone back, and, once soft-deleted, still deleted (nothing
    undeletes). *)
Theorem mutations_keep_every_record env user m d id doc :
  lookup id (documents d) = Some doc →
  ∃ doc', lookup id (documents (route env user m d).2) = Some doc'
          ∧ sameRecord doc doc'.
Proof.
  intros Hdoc.
  destruct (decide (status (route env user m d).1 = successStatus m))
    as [Hok|Hko].
  2: { rewrite (route_rollback _ _ _ _ Hko). exists doc.
       split; [done|apply sameRecord_refl]. }
  destruct m as [body|id0 body|id0|id0 n]; simpl in *.
  - destruct (createDocument_201 _ _ _ _ Hok)
      as (title & content & embedding & _ & _ & _ & _ & Heq).
    cbv zeta in Heq. rewrite Heq. simpl. exists doc.
    split; [|apply sameRecord_refl]. by rewrite lookup_app, Hdoc.
  - destruct (updateDocument_200 _ _ _ _ _ Hok)
      as (doc0 & doc1 & changes & doc2 & u & Hdoc0 & _ & Hre & Hver & _ & _
          & Hdocs).
    destruct Hdocs as [-> | ->];
      [exists doc; split; [done|apply sameRecord_refl]|].
    apply lookup_write; [done|]. simpl. intros Hid.
    assert (id0 = id) as ->.
    { apply recomputeAI_record in Hre as (Hid1 & _).
      pose proof (applyPatch_record body doc0) as (Hid0 & _).
      apply lookup_Some_id in Hdoc0.
      destruct (Changes.some changes).
      - destruct Hver as (_ & [u' ->]). rewrite pushVersion_eq in Hid.
        simpl in Hid. congruence.
      - subst doc2. congruence. }
    assert (doc0 = doc) as -> by congruence.
    eapply sameRecord_trans; [apply (applyPatch_record body)|].
    eapply sameRecord_trans; [by eapply recomputeAI_record|].
    destruct (Changes.some changes).
    + destruct Hver as (_ & [u' ->]). rewrite pushVersion_eq.
      unfold sameRecord. simpl. split_and!; try done. lia.
    + subst doc2. unfold sameRecord. simpl. split_and!; done.
  - destruct (deleteDocument_200 _ _ _ _ Hok)
      as (doc0 & u & Hdoc0 & _ & _ & Hdocs).
    destruct Hdocs as [-> | ->];
      [exists doc; split; [done|apply sameRecord_refl]|].
    apply lookup_write; [done|]. simpl. intros Hid.
    apply lookup_Some_id in Hdoc0 as Hid0.
    assert (doc0 = doc) as -> by congruence.
    unfold sameRecord. simpl. split_and!; done.
  - by destruct (restoreVersion_not_200 _ _ _ _ _ Hok).
Qed.

(** ** The AI actions *)

Lemma setFrom_ext seen seen' xs :
  (∀ x, x ∈ seen ↔ x ∈ seen') → setFrom seen xs = setFrom seen' xs.
Proof.
  revert seen seen'. induction xs as [|y xs IH]; intros seen seen' H; simpl.
  - done.
  - rewrite (bool_decide_ext (y ∈ seen) (y ∈ seen')) by apply H.
    case_bool_decide; [by apply IH|]. f_equal. apply IH.
    intros x. rewrite !elem_of_cons, H. done.
Qed.

Lemma setFrom_app seen xs ys :
  setFrom seen (xs ++ ys) = setFrom seen xs ++ setFrom (xs ++ seen) ys.
Proof.
  revert seen. induction xs as [|x xs IH]; intros seen; simpl; [done|].
  case_bool_decide as Hx.
  - rewrite IH. f_equal. apply setFrom_ext. intros z.
    rewrite ?elem_of_cons, ?elem_of_app, ?elem_of_cons.
    intuition (subst; tauto).
  - rewrite IH. simpl. f_equal. f_equal. apply setFrom_ext. intros z.
    rewrite ?elem_of_cons, ?elem_of_app, ?elem_of_cons. tauto.
Qed.

Lemma setFrom_NoDup_id seen xs :
  NoDup xs → (∀ x, x ∈ xs → x ∉ seen) → setFrom seen xs = xs.
Proof.
  intros Hnd. revert seen. induction Hnd as [|x xs Hx Hnd IH]; intros seen Hs.
  - done.
  - simpl. rewrite bool_decide_eq_false_2 by (apply Hs; left).
    f_equal. apply IH. intros y Hy. rewrite elem_of_cons.
    intros [->|?]; [done|]. by apply (Hs y); [right|].
Qed.

Lemma setFrom_seen seen xs : (∀ x, x ∈ xs → x ∈ seen) → setFrom seen xs = [].
Proof.
  revert seen. induction xs as [|x xs IH]; intros seen Hs; simpl; [done|].
  rewrite bool_decide_eq_true_2 by (apply Hs; left).
  apply IH. intros y Hy. apply Hs. by right.
Qed.

Lemma mergeTags_NoDup a b : NoDup (mergeTags a b).
Proof.
  unfold mergeTags, slice_to, arrayFromSet.
  eapply sublist_NoDup; [apply (setFrom_NoDup [] (a ++ b))|apply sublist_take].
Qed.

Lemma mergeTags_prefix a b :
  NoDup a → (length a ≤ 10)%nat → a `prefix_of` mergeTags a b.
Proof.
  intros Hnd Hlen. unfold mergeTags, slice_to, arrayFromSet.
  rewrite setFrom_app, (setFrom_NoDup_id [] a Hnd)
    by (intros ? _; apply not_elem_of_nil).
  rewrite take_app_ge by done.
  by eexists.
Qed.

(** Merging the same tags in a second time changes nothing. *)
Lemma mergeTags_idem a b : mergeTags (mergeTags a b) b = mergeTags a b.
Proof.
  pose proof (mergeTags_NoDup a b) as Hnd.
  unfold mergeTags at 1. unfold arrayFromSet, slice_to.
  rewrite setFrom_app, (setFrom_NoDup_id [] _ Hnd)
    by (intros ? _; apply not_elem_of_nil).
  rewrite app_nil_r.
  destruct (decide (length (arrayFromSet (a ++ b)) ≤ 10)%nat) as [Hle|Hgt].
  - rewrite setFrom_seen, app_nil_r.
    + apply take_ge. apply mergeTags_length.
    + intros x Hx. unfold mergeTags, slice_to. rewrite take_ge by done.
      unfold arrayFromSet. rewrite setFrom_elem_of, elem_of_app.
      split; [by right|apply not_elem_of_nil].
  - rewrite take_app_le; [apply take_ge; apply mergeTags_length|].
    unfold mergeTags, slice_to. rewrite length_take. lia.
Qed.

Lemma saveNow_others env site doc s doc' s' :
  saveNow env site doc s = (inr doc', s') →
  activities (db s') = activities (db s)
  ∧ ∀ id, id ≠ Document._id doc →
      lookup id (documents (db s')) = lookup id (documents (db s)).
Proof.
  unfold saveNow. intros H. apply bind_inr in H as (saved & s1 & Hsave & H).
  injection H as <- <-. apply save_inr in Hsave as (_ & Hdb & [u ->] & _ & Hp).
  unfold publish. simpl. destruct Hp as [-> | ->]; simpl; rewrite Hdb; [|done].
  split; [done|]. intros id Hid. by apply lookup_write_other.
Qed.

(** X9. A successful [forceSummarize] changes the summary of that one
    document to what [summarizeText] makes of its content (and the time of
    its last update) and nothing else: title, content, tags, version counter
    and ledger stay, every other document stays, and no activity record is
    written; the caller was allowed to modify the document. *)
Theorem forceSummarize_changes_only_the_summary env user id d :
  status (forceSummarize env user id d).1 = 200 →
  ∃ doc u,
    lookup id (documents d) = Some doc
    ∧ canModify user doc = true
    ∧ let summary := Gemini.summarizeText (world env) (Document.content doc) in
      (forceSummarize env user id d).1
      = {| status := 200; json := SummaryJson summary |}
      ∧ lookup id (documents (forceSummarize env user id d).2)
        = Some (Document.set_timestamps (Document.createdAt doc) u
                  (Document.set_summary summary doc))
      ∧ (∀ id', id' ≠ id →
           lookup id' (documents (forceSummarize env user id d).2)
           = lookup id' (documents d))
      ∧ activities (forceSummarize env user id d).2 = activities d.
Proof.
  intros H. unfold forceSummarize in *.
  apply handle_status in H as (r & s & Hrun & -> & Hr); [|done].
  apply bind_inr in Hrun as (found & s0 & [= <- <-] & Hrun).
  simpl in Hrun. destruct (lookup id (documents d)) as [doc|] eqn:Hdoc.
  2: { injection Hrun as <- <-. done. }
  pose proof (lookup_Some_id _ _ _ Hdoc) as Hid.
  destruct (canModify user doc) eqn:Hcan; simpl in Hrun.
  2: { injection Hrun as <- <-. done. }
  cbv zeta in Hrun.
  apply bind_inr in Hrun as (doc' & s1 & Hsave & Hrun).
  apply ret_inr in Hrun as [<- <-].
  pose proof (saveNow_others _ _ _ _ _ _ Hsave) as [Hlog Hothers].
  apply saveNow_inr in Hsave as ([u ->] & Hl). simpl in *. rewrite Hid in *.
  exists doc, u. split_and!; done.
Qed.

Lemma forceTags_200_run env user id d :
  status (forceTags env user id d).1 = 200 →
  ∃ doc u,
    lookup id (documents d) = Some doc
    ∧ canModify user doc = true
    ∧ let tags :=
        mergeTags (Document.tags doc)
          (Gemini.generateTags (world env)
             (lines (Document.title doc) (Document.content doc)) 6) in
      (forceTags env user id d).1 = {| status := 200; json := TagsJson tags |}
      ∧ lookup id (documents (forceTags env user id d).2)
        = Some (Document.set_timestamps (Document.createdAt doc) u
                  (Document.set_tags tags doc))
      ∧ (∀ id', id' ≠ id →
           lookup id' (documents (forceTags env user id d).2)
           = lookup id' (documents d))
      ∧ activities (forceTags env user id d).2 = activities d.
Proof.
  intros H. unfold forceTags in *.
  apply handle_status in H as (r & s & Hrun & -> & Hr); [|done].
  apply bind_inr in Hrun as (found & s0 & [= <- <-] & Hrun).
  simpl in Hrun. destruct (lookup id (documents d)) as [doc|] eqn:Hdoc.
  2: { injection Hrun as <- <-. done. }
  pose proof (lookup_Some_id _ _ _ Hdoc) as Hid.
  destruct (canModify user doc) eqn:Hcan; simpl in Hrun.
  2: { injection Hrun as <- <-. done. }
  cbv zeta in Hrun.
  apply bind_inr in Hrun as (doc' & s1 & Hsave & Hrun).
  apply ret_inr in Hrun as [<- <-].
  pose proof (saveNow_others _ _ _ _ _ _ Hsave) as [Hlog Hothers].
  apply saveNow_inr in Hsave as ([u ->] & Hl). simpl in *. rewrite Hid in *.
  exists doc, u. split_and!; done.
Qed.

(** X10. A successful [forceTags] changes the tags of that one document and
    nothing else (no ledger entry, no activity record, no other document).
    The new tags are distinct, and when the old tags were distinct and at
    most 10 they are all kept, in their order, in front of the AI tags that
    still fit: the action only ever adds tags. *)
Theorem forceTags_keeps_existing_tags env user id d :
  status (forceTags env user id d).1 = 200 →
  ∃ doc u,
    lookup id (documents d) = Some doc
    ∧ let tags :=
        mergeTags (Document.tags doc)
          (Gemini.generateTags (world env)
             (lines (Document.title doc) (Document.content doc)) 6) in
      (forceTags env user id d).1 = {| status := 200; json := TagsJson tags |}
      ∧ lookup id (documents (forceTags env user id d).2)
        = Some (Document.set_timestamps (Document.createdAt doc) u
                  (Document.set_tags tags doc))
      ∧ (∀ id', id' ≠ id →
           lookup id' (documents (forceTags env user id d).2)
           = lookup id' (documents d))
      ∧ activities (forceTags env user id d).2 = activities d
      ∧ NoDup tags
      ∧ (NoDup (Document.tags doc) → (length (Document.tags doc) ≤ 10)%nat →
         Document.tags doc `prefix_of` tags).
Proof.
  intros H.
  destruct (forceTags_200_run _ _ _ _ H)
    as (doc & u & Hdoc & _ & Hr & Hl & Ho & Ha).
  exists doc, u. cbv zeta in *. split_and!; try done.
  - apply mergeTags_NoDup.
  - apply mergeTags_prefix.
Qed.

(** X11. Asking for tags twice gives what asking once gives: with the same
    AI collaborator, a second successful [forceTags] on the same document
    answers the same tags as the first. *)
Theorem forceTags_twice_is_forceTags_once env env' user user' id d :
  world env' = world env →
  status (forceTags env user id d).1 = 200 →
  status (forceTags env' user' id (forceTags env user id d).2).1 = 200 →
  json (forceTags env' user' id (forceTags env user id d).2).1
  = json (forceTags env user id d).1.
Proof.
  intros Hw H1 H2.
  destruct (forceTags_200_run _ _ _ _ H1)
    as (doc & u & Hdoc & _ & Hr1 & Hl1 & _).
  destruct (forceTags_200_run _ _ _ _ H2)
    as (doc' & u' & Hdoc' & _ & Hr2 & _).
  cbv zeta in *. rewrite Hr1, Hr2. simpl. f_equal.
  rewrite Hl1 in Hdoc'. injection Hdoc' as <-. simpl.
  rewrite Hw. apply mergeTags_idem.
Qed.

(** ** Creating and deleting, when nothing fails *)

Lemma valid_title doc : Document.valid doc = true → Document.title doc ≠ [].
Proof.
  unfold Document.valid. intros [H _]%andb_prop.
  by apply negb_true_iff, bool_decide_eq_false in H.
Qed.



Lemma deleteDocument_run env user id d doc :
  lookup id (documents d) = Some doc →
  canModify user doc = true →
  Document.valid doc = true →
  saveFails env InSoftDelete = false →
  commitFails env = false →
  deleteDocument env user id d
  = (reply 200 "Document deleted successfully",
     {| documents :=
          if Document.isDeleted doc then documents d
          else write (Document.set_timestamps (Document.createdAt doc) (now env)
                        (Document.set_isDeleted true doc)) (documents d);
        activities :=
          activities d ++
            if activityWriteFails env then []
            else [activityRecord env Activity.deleted doc user None noChanges
                    None None] |}).
Proof.
  intros Hdoc Hcan Hvalid Hsave Hcommit.
  pose proof (lookup_Some_id _ _ _ Hdoc) as Hid.
  destruct d as [docs acts]. cbn [documents activities] in *.
  unfold deleteDocument, handle, bind at 1, findById.
  cbn [db documents]. rewrite Hdoc, Hcan. cbn [negb]. cbv iota.
  unfold bind at 1. rewrite logActivity_run.
  unfold Activity.valid. cbn [Activity.documentTitle activityRecord].
  rewrite (bool_decide_eq_false_2 _ (valid_title _ Hvalid)).
  cbn [negb andb db documents activities pending].
  generalize (activityRecord env Activity.deleted doc user None noChanges
                None None).
  intros a. destruct (activityWriteFails env); cbn [negb]; cbv iota;
    rewrite ?app_nil_r; [set (log := acts)|set (log := acts ++ [a])];
    clearbody log.
  all: unfold bind at 1, softDelete, save.
  all: change (Document.valid (Document.set_isDeleted true doc))
         with (Document.valid doc).
  all: rewrite Hvalid.
  all: cbn [negb db documents activities pending Document.preSave].
  all: change (Document._id (Document.set_isDeleted true doc))
         with (Document._id doc).
  all: rewrite Hid, Hdoc, Hsave.
  all: destruct (Document.isDeleted doc) eqn:Hdel.
  all: try (rewrite bool_decide_eq_true_2
              by (f_equal; destruct doc; simpl in *; by subst);
            unfold bind, commitTransaction, publish; rewrite Hcommit; done).
  all: rewrite bool_decide_eq_false_2
         by (intros [= Heq]; apply (f_equal Document.isDeleted) in Heq;
             simpl in Heq; congruence).
  all: unfold bind, commitTransaction, publish; rewrite Hcommit; done.
Qed.

(** X13. A delete goes through whenever it can: for a stored, valid, not yet
    deleted document and a caller who is an administrator or its creator,
    with no failing write, [deleteDocument] answers 200, stores the document
    with [isDeleted] set and the time of the request as its last update, and
    appends one [deleted] record that names the document, the caller and the
    current version. The document stays readable through
    [getDocumentById]. *)
Theorem delete_marks_the_document_and_logs env user id d doc :
  lookup id (documents d) = Some doc →
  User.role user = str "admin" ∨ Document.createdBy doc = User._id user →
  Document.valid doc = true →
  Document.isDeleted doc = false →
  saveFails env InSoftDelete = false →
  commitFails env = false →
  activityWriteFails env = false →
  let doc' := Document.set_timestamps (Document.createdAt doc) (now env)
                (Document.set_isDeleted true doc) in
  let record := activityRecord env Activity.deleted doc user None noChanges
                  None None in
  deleteDocument env user id d
  = (reply 200 "Document deleted successfully",
     {| documents := write doc' (documents d);
        activities := activities d ++ [record] |})
  ∧ getDocumentById id (deleteDocument env user id d).2
    = {| status := 200; json := DocumentJson (Some doc') |}
  ∧ Activity.action record = Activity.deleted
  ∧ Activity.document record = id
  ∧ Activity.user record = User._id user
  ∧ Activity.versionNumber record = Document.currentVersion doc.
Proof.
  intros Hdoc Hcan Hvalid Hdel Hsave Hcommit Hlog doc' record.
  apply canModify_true in Hcan.
  rewrite (deleteDocument_run _ _ _ _ _ Hdoc Hcan Hvalid Hsave Hcommit).
  rewrite Hdel, Hlog. split_and!; try done.
  - unfold getDocumentById. cbn [snd documents].
    apply lookup_Some_id in Hdoc as <-.
    by rewrite (lookup_write_same doc').
  - by apply lookup_Some_id in Hdoc.
Qed.

(** X14. Deleting a document that is already soft-deleted is not refused:
    the request answers 200 again, the documents stay exactly as they are
    (not even the time of the last update moves), and one more [deleted]
    record is appended to the activity log. *)
Theorem repeated_delete_only_logs_again env user id d doc :
  lookup id (documents d) = Some doc →
  canModify user doc = true →
  Document.valid doc = true →
  Document.isDeleted doc = true →
  saveFails env InSoftDelete = false →
  commitFails env = false →
  deleteDocument env user id d
  = (reply 200 "Document deleted successfully",
     {| documents := documents d;
        activities :=
          activities d ++
            if activityWriteFails env then []
            else [activityRecord env Activity.deleted doc user None noChanges
                    None None] |}).
Proof.
  intros Hdoc Hcan Hvalid Hdel Hsave Hcommit.
  rewrite (deleteDocument_run _ _ _ _ _ Hdoc Hcan Hvalid Hsave Hcommit).
  by rewrite Hdel.
Qed.

(** ** The version history and the activity feed *)

Lemma StronglySorted_weaken {A} (R S : relation A) l :
  (∀ a b, R a b → S a b) → StronglySorted R l → StronglySorted S l.
Proof.
  intros HRS. induction 1 as [|x l Hl IH Hx]; constructor; [done|].
  eapply Forall_impl; [exact Hx|]. auto.
Qed.

Section SortStable.

Context {A : Type} (before : A → A → bool).

Lemma insertSorted_Permutation x l : insertSorted before x l ≡ₚ x :: l.
Proof.
  induction l as [|y l IH]; simpl; [done|].
  destruct (before x y); [done|]. rewrite IH. apply Permutation_swap.
Qed.

Lemma sortStable_Permutation l : sortStable before l ≡ₚ l.
Proof.
  induction l as [|x l IH]; simpl; [done|].
  unfold sortStable in *. simpl. by rewrite insertSorted_Permutation, IH.
Qed.

Hypothesis before_total : ∀ x y, before x y = false → before y x = true.
Hypothesis before_trans :
  ∀ x y z, before x y = true → before y z = true → before x z = true.

Lemma insertSorted_sorted x l :
  StronglySorted (λ a b, before a b = true) l →
  StronglySorted (λ a b, before a b = true) (insertSorted before x l).
Proof.
  induction 1 as [|y l Hl IH Hy]; simpl.
  - repeat constructor.
  - destruct (before x y) eqn:Hxy.
    + constructor; [by constructor|]. constructor; [done|].
      eapply Forall_impl; [exact Hy|]. intros z Hz. by eapply before_trans.
    + constructor; [done|]. rewrite insertSorted_Permutation.
      constructor; [by apply before_total|done].
Qed.

Lemma sortStable_sorted l :
  StronglySorted (λ a b, before a b = true) (sortStable before l).
Proof.
  induction l as [|x l IH]; [constructor|]. by apply insertSorted_sorted.
Qed.

End SortStable.

Lemma sortStable_length {A} (before : A → A → bool) l :
  length (sortStable before l) = length l.
Proof. by rewrite sortStable_Permutation. Qed.

Lemma higherVersion_sorted l :
  StronglySorted (λ a b, Version.versionNumber b ≤ Version.versionNumber a)
    (sortStable higherVersion l).
Proof.
  eapply StronglySorted_weaken; [|apply (sortStable_sorted higherVersion)].
  - intros a b. unfold higherVersion. apply bool_decide_eq_true.
  - intros x y. unfold higherVersion.
    rewrite bool_decide_eq_false, bool_decide_eq_true. lia.
  - intros x y z. unfold higherVersion. rewrite !bool_decide_eq_true. lia.
Qed.

(** [slice] at two indexes that are not negative. *)
Lemma slice_nat {A} (skip limit : nat) (l : list A) :
  slice (Some (Z.of_nat skip))
    (plus (Some (Z.of_nat skip)) (Some (Z.of_nat limit))) l
  = take limit (drop skip l).
Proof.
  unfold slice, plus, relativeIndex.
  rewrite !bool_decide_eq_false_2 by lia.
  rewrite Nat2Z.id. replace (Z.to_nat (Z.of_nat skip + Z.of_nat limit))
    with (skip + limit)%nat by lia.
  destruct (decide (skip ≤ length l)%nat) as [Hle|Hgt].
  - rewrite (Nat.min_l skip) by lia.
    destruct (decide (skip + limit ≤ length l)%nat).
    + rewrite Nat.min_l by lia. f_equal. lia.
    + rewrite Nat.min_r by lia.
      rewrite !take_ge; [done|rewrite length_drop; lia..].
  - rewrite (Nat.min_r skip), (Nat.min_r (skip + limit)) by lia.
    rewrite Nat.sub_diag, (drop_ge l skip) by lia. by rewrite take_nil.
Qed.

(** X15. The version history of a stored document, for a [skip] and a
    [limit] that are not negative: the answer is the window of [limit]
    entries after the first [skip] of the ledger sorted by descending version
    number (a rearrangement of the ledger), [total] is the length of the
    ledger, and [hasMore] is true exactly when entries remain beyond the
    window, that is when [skip + limit < total]. *)
Theorem versions_page_is_a_window_of_the_sorted_ledger id d doc :
  lookup id (documents d) = Some doc →
  ∃ sorted,
    sorted ≡ₚ Document.versions doc
    ∧ StronglySorted
        (λ a b, Version.versionNumber b ≤ Version.versionNumber a) sorted
    ∧ ∀ skip limit : nat,
        getDocumentVersions id (Some (Z.of_nat skip)) (Some (Z.of_nat limit)) d
        = Sent {| VersionsPage.versions := take limit (drop skip sorted);
                  VersionsPage.total := length (Document.versions doc);
                  VersionsPage.hasMore :=
                    bool_decide
                      (skip + limit < length (Document.versions doc))%nat |}.
Proof.
  intros Hdoc. exists (sortStable higherVersion (Document.versions doc)).
  split_and!.
  - apply sortStable_Permutation.
  - apply higherVersion_sorted.
  - intros skip limit. unfold getDocumentVersions. rewrite Hdoc.
    rewrite slice_nat. do 2 f_equal.
    unfold lessThan, plus. rewrite length_take, length_drop, sortStable_length.
    apply bool_decide_ext. lia.
Qed.

(** X16. A [skip] or [limit] that does not parse as a number is not refused:
    the history comes back with status 200 and an empty page, whatever the
    ledger holds, and [hasMore] is then true exactly when [skip] is a number
    below [total] (so a client that follows [hasMore] asks again for ever
    when [limit] is not a number). *)
Theorem versions_page_of_a_non_numeric_parameter_is_empty
    id d doc skip limit :
  lookup id (documents d) = Some doc →
  skip = None ∨ limit = None →
  getDocumentVersions id skip limit d
  = Sent {| VersionsPage.versions := [];
            VersionsPage.total := length (Document.versions doc);
            VersionsPage.hasMore :=
              lessThan skip (length (Document.versions doc)) |}.
Proof.
  intros Hdoc Hnan. unfold getDocumentVersions. rewrite Hdoc.
  assert (slice skip (plus skip limit)
            (sortStable higherVersion (Document.versions doc)) = []) as ->.
  { unfold slice. replace (plus skip limit) with (@None Z)
      by (destruct Hnan as [-> | ->]; [done|by destruct skip]).
    simpl. by rewrite Nat.sub_0_l. }
  do 2 f_equal. destruct skip as [z|]; simpl; [|done].
  apply bool_decide_ext. lia.
Qed.

Lemma laterActivity_sorted l :
  StronglySorted (λ a b, Activity.createdAt b ≤ Activity.createdAt a)
    (sortStable laterActivity l).
Proof.
  eapply StronglySorted_weaken; [|apply (sortStable_sorted laterActivity)].
  - intros a b. unfold laterActivity. apply bool_decide_eq_true.
  - intros x y. unfold laterActivity.
    rewrite bool_decide_eq_false, bool_decide_eq_true. lia.
  - intros x y z. unfold laterActivity. rewrite !bool_decide_eq_true. lia.
Qed.

(** X17. The activity feed is a window of the whole log, newest first: the
    records after the first [skip] of the log sorted by descending creation
    time, [limit] of them or, for [limit = 0], all of them; each comes with
    the text of its action and its creation time as [timestamp]; [total]
    counts the whole log and [hasMore] is true exactly when a limit is set
    and records remain beyond the window. *)
Theorem activity_feed_is_a_window_of_the_log skip limit d :
  ∃ sorted,
    sorted ≡ₚ activities d
    ∧ StronglySorted
        (λ a b, Activity.createdAt b ≤ Activity.createdAt a) sorted
    ∧ activityFeed skip limit d
      = {| Feed.activities :=
             feedItem <$> (if bool_decide (limit = 0%nat) then drop skip sorted
                           else take limit (drop skip sorted));
           Feed.total := length (activities d);
           Feed.hasMore :=
             bool_decide
               (limit ≠ 0 ∧ skip + limit < length (activities d))%nat |}.
Proof.
  exists (sortStable laterActivity (activities d)). split_and!.
  - apply sortStable_Permutation.
  - apply laterActivity_sorted.
  - unfold activityFeed. f_equal. apply bool_decide_ext.
    case_bool_decide; rewrite ?length_take, length_drop, sortStable_length; lia.
Qed.

Lemma sortStable_latest a l :
  (∀ b, b ∈ l → Activity.createdAt b < Activity.createdAt a) →
  sortStable laterActivity (l ++ [a]) = a :: sortStable laterActivity l.
Proof.
  induction l as [|x l IH]; intros Hl; [done|].
  unfold sortStable in *. simpl. rewrite IH by (intros b Hb; apply Hl; by right).
  simpl. unfold laterActivity at 1. rewrite bool_decide_eq_false_2; [done|].
  specialize (Hl x (list_elem_of_here _ _)). lia.
Qed.

(** X18. What a mutation logs is what the feed shows first: when a create,
    update, delete or restore request made at a time later than every record
    of the log has written a record, the first item of the feed afterwards,
    for any limit, is that record, with the caller as its user and the time
    of the request as its timestamp. *)
Theorem latest_mutation_heads_the_feed env user m d limit :
  (∀ b, b ∈ activities d → Activity.createdAt b < now env) →
  activities (route env user m d).2 ≠ activities d →
  ∃ a,
    head (Feed.activities (activityFeed 0 limit (route env user m d).2))
    = Some (feedItem a)
    ∧ activities (route env user m d).2 = activities d ++ [a]
    ∧ Activity.user a = User._id user
    ∧ Feed.timestamp (feedItem a) = now env.
Proof.
  intros Hlate Hgrew.
  destruct (route_appends env user m d) as (l & Hl & Hlen & HP).
  destruct l as [|a [|b l]]; [by rewrite app_nil_r in Hl| |simpl in Hlen; lia].
  apply Forall_singleton in HP as (Huser & Htime & _).
  exists a. split_and!; [|done..].
  unfold activityFeed. rewrite Hl. cbn [Feed.activities].
  rewrite sortStable_latest by (intros b Hb; rewrite Htime; by apply Hlate).
  rewrite drop_0. case_bool_decide; [done|]. by destruct limit.
Qed.

(** ** The listing and the text search *)

Lemma newer_trans : Transitive newer.
Proof. unfold newer. intros a b c. lia. Qed.

Lemma newer_total : Total newer.
Proof. unfold newer. intros a b. lia. Qed.

Lemma newestFirst_sorted docs : StronglySorted newer (newestFirst docs).
Proof.
  apply StronglySorted_merge_sort; [apply newer_trans|apply newer_total].
Qed.

Lemma newestFirst_Permutation docs : newestFirst docs ≡ₚ docs.
Proof. apply merge_sort_Permutation. Qed.

Lemma StronglySorted_window {A} (R : relation A) n m l :
  StronglySorted R l → StronglySorted R (take n (drop m l)).
Proof.
  intros H. rewrite <- (take_drop m l) in H.
  apply StronglySorted_app_1_r in H.
  rewrite <- (take_drop n (drop m l)) in H.
  by apply StronglySorted_app_1_l in H.
Qed.

Lemma StronglySorted_drop {A} (R : relation A) m l :
  StronglySorted R l → StronglySorted R (drop m l).
Proof.
  intros H. rewrite <- (take_drop m l) in H.
  by apply StronglySorted_app_1_r in H.
Qed.

Lemma filter_all {A} (P : A → Prop) `{!∀ x, Decision (P x)} (l : list A) :
  (∀ x, P x) → filter P l = l.
Proof.
  intros HP. induction l as [|x l IH]; [done|].
  by rewrite filter_cons_True, IH.
Qed.

(** The page a listing cuts out of what it found. *)
Lemma page_properties (found : list Document.t) limit page :
  let docs := if bool_decide (limit = 0%nat)
              then drop ((page - 1) * limit) found
              else take limit (drop ((page - 1) * limit) found) in
  docs `sublist_of` found
  ∧ (StronglySorted newer found → StronglySorted newer docs)
  ∧ (limit ≠ 0%nat → (length docs ≤ limit)%nat)
  ∧ (limit = 0%nat ∨ (page = 1%nat ∧ (length found ≤ limit)%nat) →
     docs = found).
Proof.
  cbv zeta. case_bool_decide as Hl; split_and!.
  - apply sublist_drop.
  - apply StronglySorted_drop.
  - done.
  - intros _. subst limit. by rewrite Nat.mul_0_r.
  - etrans; [apply sublist_take|apply sublist_drop].
  - apply StronglySorted_window.
  - intros _. rewrite length_take. lia.
  - intros [?|[-> Hlen]]; [done|]. simpl. by rewrite take_ge.
Qed.

Lemma getDocuments_200 env user query d docs :
  getDocuments env user query d
  = {| status := 200; json := DocumentsJson docs |} →
  let found :=
    newestFirst (filter (λ doc, matches env user query doc = true)
                   (documents d)) in
  docs = if bool_decide (Query.limit query = 0%nat)
         then drop ((Query.page query - 1) * Query.limit query) found
         else take (Query.limit query)
                (drop ((Query.page query - 1) * Query.limit query) found).
Proof.
  unfold getDocuments. case_bool_decide; [done|]. by intros [= <-].
Qed.


(** The text search is the listing with the [q] filter alone. *)
Lemma textSearch_getDocuments env user q limit page d :
  textSearch env q limit page d
  = if bool_decide (page = 0%nat ∧ limit ≠ 0%nat)
    then reply 500 "Text search failed"
    else getDocuments env user (Query.mk false None None q limit page) d.
Proof.
  unfold textSearch, getDocuments, matches. simpl.
  case_bool_decide; done.
Qed.

(** X20. What a text search answers: with a pattern, every document it
    returns is stored and has the pattern matching its title, its content or
    one of its tags; without a pattern and without a limit it returns the
    whole collection, soft-deleted documents included; the documents come
    most recently updated first, at most [limit] of them when a limit is
    set. *)
Theorem text_search_finds_what_matches env q limit page d docs :
  textSearch env q limit page d
  = {| status := 200; json := DocumentsJson docs |} →
  (∀ pattern, truthy q = Some pattern →
   ∀ doc, doc ∈ docs →
     doc ∈ documents d
     ∧ (regexTest env pattern (Document.title doc) = true
        ∨ regexTest env pattern (Document.content doc) = true
        ∨ ∃ tag, tag ∈ Document.tags doc ∧ regexTest env pattern tag = true))
  ∧ (truthy q = None → limit = 0%nat → docs ≡ₚ documents d)
  ∧ StronglySorted newer docs
  ∧ (limit ≠ 0%nat → (length docs ≤ limit)%nat).
Proof.
  intros H. rewrite (textSearch_getDocuments env (User.mk 0 [])) in H.
  case_bool_decide; [done|].
  apply getDocuments_200 in H. cbv zeta in H.
  destruct (page_properties
              (newestFirst
                 (filter (λ doc, matches env (User.mk 0 [])
                                   (Query.mk false None None q limit page) doc
                                 = true)
                    (documents d))) limit page)
    as (Hsub & Hsorted & Hlen & Hall).
  cbv zeta in *. simpl in H. rewrite <- H in *. split_and!.
  - intros pattern Hq doc Hdoc. eapply elem_of_sublist in Hdoc; [|exact Hsub].
    rewrite newestFirst_Permutation in Hdoc.
    apply list_elem_of_filter in Hdoc as [Hm Hd]. split; [done|].
    unfold matches in Hm. simpl in Hm. rewrite Hq in Hm.
    apply orb_prop in Hm as [[Hm|Hm]%orb_prop|Hm]; [auto..|].
    right; right. apply existsb_exists in Hm as (tag & Ht & Hm).
    exists tag. by rewrite list_elem_of_In.
  - intros Hq Hl. rewrite Hall by auto. rewrite newestFirst_Permutation.
    rewrite filter_all; [done|]. intros doc. unfold matches. simpl.
    by rewrite Hq.
  - apply Hsorted, newestFirst_sorted.
  - done.
Qed.

(** ** Questions to the team's documents *)

Lemma contextEntry_cut i d :
  contextEntry i (Document.set_content (slice_to 1500 (Document.content d)) d)
  = contextEntry i d.
Proof.
  unfold contextEntry, slice_to. simpl. by rewrite take_take, Nat.min_id.
Qed.

Lemma answerPrompt_cut question docs :
  answerPrompt question
    ((λ d, Document.set_content (slice_to 1500 (Document.content d)) d)
       <$> slice_to 5 docs)
  = answerPrompt question docs.
Proof.
  unfold answerPrompt, slice_to. do 3 f_equal.
  rewrite <- fmap_take, take_take, Nat.min_id.
  do 2 f_equal. rewrite imap_fmap. f_equal. apply imap_ext.
  intros i d _. apply contextEntry_cut.
Qed.

Lemma answerQuestion_cut w question docs :
  answerQuestion w question docs
  = answerQuestion w question
      ((λ d, Document.set_content (slice_to 1500 (Document.content d)) d)
         <$> slice_to 5 docs).
Proof.
  unfold answerQuestion at 1 2.
  rewrite answerPrompt_cut.
  destruct docs as [|first rest]; done.
Qed.

(** X21. An answer depends on the first five documents it is given and on
    the first 1500 code units of the content of each: [answerQuestion]
    answers the same when every further document is dropped and every
    content is cut at 1500, whether the model is available, fails or is
    absent. *)
Theorem answer_reads_five_documents_of_1500_units w question docs :
  answerQuestion w question docs
  = answerQuestion w question
      ((λ d, Document.set_content (slice_to 1500 (Document.content d)) d)
         <$> slice_to 5 docs).
Proof.
  destruct docs as [|first rest]; [done|].
  unfold answerQuestion. rewrite answerPrompt_cut.
  by destruct (Gemini.genAI w) as [client|].
Qed.

(** X22. [teamQA] fetches the ten most recently updated documents, but its
    answer is the answer over the five most recently updated ones; a missing
    or empty question is refused with 400. *)
Theorem teamQA_reads_the_five_newest env question d :
  teamQA env question d
  = match truthy question with
    | None => Refused 400 (str "Question is required")
    | Some question =>
        Sent (answerQuestion (world env) question
                (slice_to 5 (newestFirst (documents d))))
    end.
Proof.
  unfold teamQA. destruct (truthy question) as [q|]; [|done]. f_equal.
  rewrite answerQuestion_cut.
  rewrite (answerQuestion_cut _ _ (slice_to 5 _)).
  unfold slice_to. by rewrite !take_take.
Qed.

Lemma newestFirst_head docs first rest :
  newestFirst docs = first :: rest →
  first ∈ docs
  ∧ ∀ doc, doc ∈ docs → Document.updatedAt doc ≤ Document.updatedAt first.
Proof.
  intros H. pose proof (newestFirst_sorted docs) as Hs.
  pose proof (newestFirst_Permutation docs) as Hp. rewrite H in Hs, Hp.
  split.
  - rewrite <- Hp. left.
  - intros doc Hdoc. rewrite <- Hp in Hdoc.
    apply elem_of_cons in Hdoc as [->|Hdoc]; [done|].
    apply StronglySorted_inv in Hs as [_ Hs].
    by apply (proj1 (Forall_forall _ _) Hs).
Qed.

(** X23. Without the model (no client, or a call that fails on this
    prompt), [teamQA] still answers a non-empty question with status 200: on
    an empty collection with "No relevant documents found.", otherwise with
    "Based on available docs, likely relevant: " followed by the title of a
    stored document that no other document was updated after. *)
Theorem teamQA_without_the_model_names_a_newest_document env question d :
  question ≠ [] →
  (∀ client, Gemini.genAI (world env) = Some client →
     Gemini.generateContent client
       (answerPrompt question (slice_to 10 (newestFirst (documents d))))
     = None) →
  match documents d with
  | [] => teamQA env (Some question) d
          = Sent (str "No relevant documents found.")
  | _ :: _ =>
      ∃ first,
        first ∈ documents d
        ∧ (∀ doc, doc ∈ documents d →
                  Document.updatedAt doc ≤ Document.updatedAt first)
        ∧ teamQA env (Some question) d
          = Sent (str "Based on available docs, likely relevant: "
                    ++ Document.title first)
  end.
Proof.
  intros Hq Hdown. unfold teamQA.
  destruct question as [|c question]; [done|]. cbn [truthy].
  destruct (documents d) as [|doc0 docs0] eqn:Hdocs; [done|].
  rewrite <- Hdocs in *.
  destruct (newestFirst (documents d)) as [|first rest] eqn:Hsorted.
  { pose proof (newestFirst_Permutation (documents d)) as Hp.
    rewrite Hsorted, Hdocs in Hp. by apply Permutation_nil_cons in Hp. }
  apply newestFirst_head in Hsorted as [Hin Hmax].
  exists first. split_and!; [done..|]. f_equal.
  unfold answerQuestion. cbn [slice_to take] in *.
  destruct (Gemini.genAI (world env)) as [client|]; [|done].
  by rewrite (Hdown client).
Qed.

(** ** The fallback embedding *)

Lemma hashLoop_length i text vec :
  length (hashLoop i text vec) = length vec.
Proof.
  revert i vec. induction text as [|c text IH]; intros i vec; simpl; [done|].
  by rewrite IH, length_alter.
Qed.

Lemma hashLoop_lookup j i text vec v :
  vec !! j = Some v → v < 1000 →
  hashLoop i text vec !! j = Some ((v + residueSum j i text) mod 1000).
Proof.
  revert i vec v. induction text as [|c text IH]; intros i vec v Hv Hlt;
    cbn [hashLoop residueSum].
  - by rewrite N.add_0_r, N.mod_small.
  - case_bool_decide as Hj.
    + subst j. rewrite (IH _ _ ((v + c) mod 1000)).
      * by rewrite N.Div0.add_mod_idemp_l, N.add_assoc.
      * rewrite list_lookup_alter, Hv. by rewrite decide_True.
      * by apply N.mod_lt.
    + rewrite (IH _ _ v); [by rewrite N.add_0_l| |done].
      rewrite list_lookup_alter. by rewrite decide_False.
Qed.

(** X24. The fallback embedding of a text, before its entries are divided by
    1000, always has 64 entries, and entry [j] is the sum of the code units
    at the indexes congruent to [j] modulo 64, taken modulo 1000, so below
    1000. *)
Theorem hash_embedding_sums_code_units_by_residue text :
  length (hashCounts text) = 64%nat
  ∧ ∀ j, (j < 64)%nat →
      hashCounts text !! j = Some (residueSum j 0 text mod 1000)
      ∧ residueSum j 0 text mod 1000 < 1000.
Proof.
  unfold hashCounts. split.
  - by rewrite hashLoop_length, length_replicate.
  - intros j Hj. split; [|by apply N.mod_lt].
    rewrite (hashLoop_lookup _ _ _ _ 0); [done| |done].
    by apply lookup_replicate_2.
Qed.

(** ** The ledger stays in order *)

(** X25. An update that changes something and goes through leaves a ledger
    of exactly one entry, and that entry is a snapshot of the document as
    the update leaves it (the new title, content, summary and tags, not the
    previous ones), numbered with the new version counter, which is the old
    one plus one, and edited by the caller. It only goes through for a
    document that had no ledger entry. *)
Theorem changing_update_records_the_new_state env user id body d doc :
  lookup id (documents d) = Some doc →
  Changes.some (trackChanges body doc) = true →
  status (updateDocument env user id body d).1 = 200 →
  ∃ doc' v,
    (updateDocument env user id body d).1
    = {| status := 200; json := DocumentJson (Some doc') |}
    ∧ lookup id (documents (updateDocument env user id body d).2) = Some doc'
    ∧ Document.versions doc = []
    ∧ Document.versions doc' = [v]
    ∧ Document.currentVersion doc' = Document.currentVersion doc + 1
    ∧ Version.versionNumber v = Document.currentVersion doc'
    ∧ Version.snapshot v = Document.snapshot doc'
    ∧ Version.editedBy v = User._id user
    ∧ Document.lastUpdatedBy doc' = Some (User._id user).
Proof.
  intros Hdoc Hsome Hok.
  destruct (updateDocument_200 _ _ _ _ _ Hok)
    as (doc0 & doc1 & changes & doc2 & u & Hdoc0 & _ & Hre & Hver & Hr & Hl & _).
  assert (doc0 = doc) as -> by congruence.
  pose proof (recomputeAI_flags _ _ _ _ _ _ _ _ Hre) as (_ & _ & Hflags).
  apply recomputeAI_inr in Hre as (_ & _ & Hv1 & Hc1 & _).
  rewrite (Hflags Hsome) in Hver. destruct Hver as (Hnil & u' & ->).
  rewrite Hnil in Hv1.
  eexists _, _. split_and!; [exact Hr|exact Hl|exact Hnil|..].
  - rewrite pushVersion_eq. simpl. rewrite Hv1. reflexivity.
  - rewrite pushVersion_eq. simpl. by rewrite Hc1.
  - by rewrite pushVersion_eq.
  - by rewrite pushVersion_eq.
  - done.
  - by rewrite pushVersion_eq.
Qed.

Lemma ledgerOrdered_ext doc doc' :
  Document.versions doc' = Document.versions doc →
  Document.currentVersion doc' = Document.currentVersion doc →
  ledgerOrdered doc → ledgerOrdered doc'.
Proof. unfold ledgerOrdered. by intros -> ->. Qed.

Lemma pushVersion_ordered user changes doc :
  ledgerOrdered doc →
  ledgerOrdered
    (pushVersion (versionLiteral user changes (bumped user doc))
       (bumped user doc)).
Proof.
  intros [Hsorted Hbound]. rewrite pushVersion_eq. unfold ledgerOrdered.
  simpl. unfold slice_last. split.
  - apply StronglySorted_drop. apply StronglySorted_app_2.
    + intros a b Ha Hb. apply list_elem_of_singleton in Hb. subst b. simpl.
      apply (proj1 (Forall_forall _ _) Hbound) in Ha. lia.
    + done.
    + repeat constructor.
  - apply Forall_drop. apply Forall_app. split.
    + eapply Forall_impl; [exact Hbound|]. intros v Hv. simpl in *. lia.
    + apply Forall_singleton. simpl. lia.
Qed.

(** X26. Every ledger stays in order: if in every stored document the
    version numbers of the ledger are strictly ascending and none is above
    the document's version counter, the same holds after any create, update,
    delete or restore request, however it ends. (It holds of the empty
    database, so of every database these requests build.) *)
Theorem mutations_keep_ledgers_in_order env user m d :
  ledgersOrdered d → ledgersOrdered (route env user m d).2.
Proof.
  intros Hd.
  destruct (decide (status (route env user m d).1 = successStatus m))
    as [Hok|Hko].
  2: { unfold ledgersOrdered. by rewrite (route_rollback _ _ _ _ Hko). }
  destruct m as [body|id body|id|id n]; simpl in *.
  - destruct (createDocument_201 _ _ _ _ Hok)
      as (title & content & embedding & _ & _ & _ & _ & Heq).
    cbv zeta in Heq. rewrite Heq. intros x Hx. simpl in Hx.
    apply elem_of_app in Hx as [Hx|Hx]; [by apply Hd|].
    apply list_elem_of_singleton in Hx. subst x. unfold ledgerOrdered. simpl.
    split; repeat constructor. simpl. lia.
  - destruct (updateDocument_200 _ _ _ _ _ Hok)
      as (doc & doc1 & changes & doc2 & u & Hdoc & _ & Hre & Hver & _ & _
          & Hdocs).
    apply recomputeAI_inr in Hre as (_ & _ & Hv1 & Hc1 & _).
    unfold ledgersOrdered.
    destruct Hdocs as [-> | ->]; [done|]. apply write_Forall; [done|].
    assert (ledgerOrdered doc1) as H1.
    { eapply ledgerOrdered_ext; [exact Hv1|exact Hc1|].
      by apply Hd, (lookup_elem_of id). }
    apply (ledgerOrdered_ext doc2); [done..|].
    destruct (Changes.some changes).
    + destruct Hver as (_ & [u' ->]).
      eapply ledgerOrdered_ext; [| |by apply (pushVersion_ordered user changes)];
        done.
    + by subst doc2.
  - destruct (deleteDocument_200 _ _ _ _ Hok)
      as (doc & u & Hdoc & _ & _ & Hdocs).
    unfold ledgersOrdered.
    destruct Hdocs as [-> | ->]; [done|]. apply write_Forall; [done|].
    apply (ledgerOrdered_ext doc); [done..|].
    by apply Hd, (lookup_elem_of id).
  - by destruct (restoreVersion_not_200 _ _ _ _ _ Hok).
Qed.

Lemma insertSorted_last x l :
  Forall (λ y, Version.versionNumber x < Version.versionNumber y) l →
  insertSorted higherVersion x l = l ++ [x].
Proof.
  induction 1 as [|y l Hy Hl IH]; [done|]. simpl.
  unfold higherVersion at 1. rewrite bool_decide_eq_false_2 by lia.
  by rewrite IH.
Qed.

Lemma sortStable_ascending l :
  StronglySorted
    (λ a b, Version.versionNumber a < Version.versionNumber b) l →
  sortStable higherVersion l = reverse l.
Proof.
  induction 1 as [|x l Hl IH Hx]; [done|].
  unfold sortStable in *. simpl. rewrite IH, reverse_cons.
  apply insertSorted_last. by apply Forall_reverse.
Qed.

(** X27. For a document whose ledger is in order, the version history is the
    ledger read backwards: [getDocumentVersions] answers the window of
    [limit] entries after the first [skip] of the reversed ledger, newest
    entry first. *)
Theorem history_of_an_ordered_ledger_is_its_reverse
    id d doc (skip limit : nat) :
  lookup id (documents d) = Some doc →
  ledgerOrdered doc →
  getDocumentVersions id (Some (Z.of_nat skip)) (Some (Z.of_nat limit)) d
  = Sent {| VersionsPage.versions :=
              take limit (drop skip (reverse (Document.versions doc)));
            VersionsPage.total := length (Document.versions doc);
            VersionsPage.hasMore :=
              bool_decide
                (skip + limit < length (Document.versions doc))%nat |}.
Proof.
  intros Hdoc [Hsorted _]. unfold getDocumentVersions. rewrite Hdoc.
  rewrite slice_nat, sortStable_ascending by done. do 2 f_equal.
  unfold lessThan, plus. rewrite length_take, length_drop, length_reverse.
  apply bool_decide_ext. lia.
Qed.

(** ** The further properties at concrete requests *)

(** Bob, who is no administrator, tries to delete Alice's runbook. *)
Lemma forbidden_requests_change_nothing_witness :
  lookup 1 (documents Example.created) = Some Scenario.stored
  ∧ User.role Scenario.bob ≠ str "admin"
  ∧ Document.createdBy Scenario.stored ≠ User._id Scenario.bob
  ∧ deleteDocument (Example.at_time 2) Scenario.bob 1 Example.created
    = (reply 403 "Forbidden", Example.created).
Proof.
  assert (lookup 1 (documents Example.created) = Some Scenario.stored)
    as H1 by (vm_compute; reflexivity).
  assert (User.role Scenario.bob ≠ str "admin") as H2 by (by vm_compute).
  assert (Document.createdBy Scenario.stored ≠ User._id Scenario.bob)
    as H3 by (by vm_compute).
  split_and!; [exact H1|exact H2|exact H3|].
  exact (proj1 (proj2 (forbidden_requests_change_nothing (Example.at_time 2)
                         Scenario.bob 1 Scenario.stored Example.created
                         H1 H2 H3))).
Defined.


Lemma create_requires_title_and_content_witness :
  createDocument (Example.at_time 1) Example.alice Scenario.untitled
    Example.empty
  = (reply 400 "Title and content are required", Example.empty).
Proof.
  apply (create_requires_title_and_content (Example.at_time 1) Example.alice
           Scenario.untitled Example.empty).
  left. reflexivity.
Defined.

Lemma blank_title_is_refused_witness :
  createDocument (Example.at_time 1) Example.alice Scenario.blank Example.empty
  = (reply 500 "Failed to create document", Example.empty).
Proof.
  apply (blank_title_is_refused (Example.at_time 1) Example.alice
           (str "   ") (str "Step one.") None Example.empty).
  - by vm_compute.
  - vm_compute. reflexivity.
  - by vm_compute.
Defined.

(** Alice's first edit of the runbook she has just created. *)
Lemma update_of_versioned_document_fails_witness :
  updateDocument (Example.at_time 2) Example.alice 1 (Example.edit 1)
    Example.created
  = (reply 500 "Failed to update document", Example.created).
Proof.
  apply (update_of_versioned_document_fails (Example.at_time 2) Example.alice
           1 (Example.edit 1) Example.created Scenario.stored).
  - vm_compute. reflexivity.
  - vm_compute. reflexivity.
  - by vm_compute.
  - vm_compute. reflexivity.
Defined.

Lemma mutations_keep_every_record_witness :
  ∃ doc',
    lookup 1 (documents (route (Example.at_time 2) Example.alice (Delete 1)
                           Example.created).2) = Some doc'
    ∧ sameRecord Scenario.stored doc'.
Proof.
  apply (mutations_keep_every_record (Example.at_time 2) Example.alice
           (Delete 1) Example.created 1 Scenario.stored).
  vm_compute. reflexivity.
Defined.

Lemma forceSummarize_changes_only_the_summary_witness :
  status (forceSummarize (Example.at_time 2) Example.alice 1
            Example.created).1 = 200
  ∧ activities (forceSummarize (Example.at_time 2) Example.alice 1
                  Example.created).2
    = activities Example.created.
Proof.
  assert (status (forceSummarize (Example.at_time 2) Example.alice 1
                    Example.created).1 = 200)
    as H by (vm_compute; reflexivity).
  split; [exact H|].
  destruct (forceSummarize_changes_only_the_summary _ _ _ _ H)
    as (doc & u & _ & _ & _ & _ & _ & Ha).
  exact Ha.
Defined.

Lemma forceTags_keeps_existing_tags_witness :
  status (forceTags (Example.at_time 2) Example.alice 1 Example.created).1
  = 200
  ∧ activities (forceTags (Example.at_time 2) Example.alice 1
                  Example.created).2
    = activities Example.created.
Proof.
  assert (status (forceTags (Example.at_time 2) Example.alice 1
                    Example.created).1 = 200)
    as H by (vm_compute; reflexivity).
  split; [exact H|].
  destruct (forceTags_keeps_existing_tags _ _ _ _ H)
    as (doc & u & _ & _ & _ & _ & Ha & _).
  exact Ha.
Defined.

Lemma forceTags_twice_is_forceTags_once_witness :
  json (forceTags (Example.at_time 3) Scenario.root 1
          (forceTags (Example.at_time 2) Example.alice 1 Example.created).2).1
  = json (forceTags (Example.at_time 2) Example.alice 1 Example.created).1.
Proof.
  apply (forceTags_twice_is_forceTags_once (Example.at_time 2)
           (Example.at_time 3) Example.alice Scenario.root 1 Example.created).
  - reflexivity.
  - vm_compute. reflexivity.
  - vm_compute. reflexivity.
Defined.


Lemma delete_marks_the_document_and_logs_witness :
  getDocumentById 1
    (deleteDocument (Example.at_time 2) Example.alice 1 Example.created).2
  = {| status := 200; json := DocumentJson (Some Scenario.removed) |}.
Proof.
  refine (proj1 (proj2 (delete_marks_the_document_and_logs (Example.at_time 2)
                          Example.alice 1 Example.created Scenario.stored
                          _ _ _ _ _ _ _))).
  - vm_compute. reflexivity.
  - right. reflexivity.
  - vm_compute. reflexivity.
  - reflexivity.
  - reflexivity.
  - reflexivity.
  - reflexivity.
Defined.

Lemma repeated_delete_only_logs_again_witness :
  documents (deleteDocument (Example.at_time 3) Example.alice 1
               Example.deleted).2
  = documents Example.deleted.
Proof.
  rewrite (repeated_delete_only_logs_again (Example.at_time 3) Example.alice 1
             Example.deleted Scenario.removed).
  - reflexivity.
  - vm_compute. reflexivity.
  - vm_compute. reflexivity.
  - vm_compute. reflexivity.
  - reflexivity.
  - reflexivity.
  - reflexivity.
Defined.

Lemma versions_page_is_a_window_of_the_sorted_ledger_witness :
  ∃ sorted,
    sorted ≡ₚ Document.versions Scenario.stored
    ∧ getDocumentVersions 1 (Some 0%Z) (Some 10%Z) Example.created
      = Sent {| VersionsPage.versions := take 10 (drop 0 sorted);
                VersionsPage.total := 1;
                VersionsPage.hasMore := false |}.
Proof.
  destruct (versions_page_is_a_window_of_the_sorted_ledger 1 Example.created
              Scenario.stored)
    as (sorted & Hp & _ & Hpage).
  - vm_compute. reflexivity.
  - exists sorted. split; [exact Hp|]. exact (Hpage 0%nat 10%nat).
Defined.

Lemma versions_page_of_a_non_numeric_parameter_is_empty_witness :
  getDocumentVersions 1 (Some 0%Z) None Example.created
  = Sent {| VersionsPage.versions := []; VersionsPage.total := 1;
            VersionsPage.hasMore := true |}.
Proof.
  apply (versions_page_of_a_non_numeric_parameter_is_empty 1 Example.created
           Scenario.stored (Some 0%Z) None).
  - vm_compute. reflexivity.
  - right. reflexivity.
Defined.

Lemma latest_mutation_heads_the_feed_witness :
  ∃ a,
    head (Feed.activities
            (activityFeed 0 5
               (route (Example.at_time 2) Example.alice (Delete 1)
                  Example.created).2))
    = Some (feedItem a)
    ∧ Activity.user a = 7.
Proof.
  destruct (latest_mutation_heads_the_feed (Example.at_time 2) Example.alice
              (Delete 1) Example.created 5)
    as (a & Hhead & _ & Huser & _).
  - intros b Hb. vm_compute in Hb.
    apply list_elem_of_singleton in Hb. subst b. reflexivity.
  - by vm_compute.
  - exists a. split; [exact Hhead|exact Huser].
Defined.


(** A search without a pattern and without a limit, after the delete:
    the soft-deleted runbook is found. *)
Lemma text_search_finds_what_matches_witness :
  textSearch (Example.at_time 3) None 0 1 Example.deleted
  = {| status := 200; json := DocumentsJson [Scenario.removed] |}
  ∧ [Scenario.removed] ≡ₚ documents Example.deleted
  ∧ Document.isDeleted Scenario.removed = true.
Proof.
  assert (textSearch (Example.at_time 3) None 0 1 Example.deleted
          = {| status := 200; json := DocumentsJson [Scenario.removed] |})
    as H by (vm_compute; reflexivity).
  split_and!; [exact H| |reflexivity].
  exact (proj1 (proj2 (text_search_finds_what_matches _ _ _ _ _ _ H))
           eq_refl eq_refl).
Defined.

Lemma teamQA_without_the_model_names_a_newest_document_witness :
  ∃ first,
    first ∈ documents Example.created
    ∧ teamQA (Example.at_time 2) (Some (str "Who?")) Example.created
      = Sent (str "Based on available docs, likely relevant: "
                ++ Document.title first).
Proof.
  destruct (teamQA_without_the_model_names_a_newest_document
              (Example.at_time 2) (str "Who?") Example.created)
    as (first & Hin & _ & Hanswer).
  - by vm_compute.
  - intros client [=].
  - exists first. split; [exact Hin|exact Hanswer].
Defined.

Lemma hash_embedding_sums_code_units_by_residue_witness :
  (1 < 64)%nat ∧ hashCounts (str "ab") !! 1%nat = Some 98.
Proof.
  assert (1 < 64)%nat as H by lia.
  split; [exact H|].
  exact (proj1 (proj2 (hash_embedding_sums_code_units_by_residue (str "ab"))
                  1%nat H)).
Defined.

(** The tags of a document without ledger entry, sent in another order. *)
Lemma changing_update_records_the_new_state_witness :
  ∃ doc' v,
    lookup 1 (documents (updateDocument (Example.at_time 2) Example.alice 1
                           Example.reordered Example.legacy).2) = Some doc'
    ∧ Document.versions doc' = [v]
    ∧ Version.snapshot v = Document.snapshot doc'.
Proof.
  destruct (changing_update_records_the_new_state (Example.at_time 2)
              Example.alice 1 Example.reordered Example.legacy
              Example.legacyDocument)
    as (doc' & v & _ & Hl & _ & Hv & _ & _ & Hs & _).
  - reflexivity.
  - vm_compute. reflexivity.
  - vm_compute. reflexivity.
  - exists doc', v. split_and!; [exact Hl|exact Hv|exact Hs].
Defined.

Lemma mutations_keep_ledgers_in_order_witness :
  ledgersOrdered Example.empty ∧ ledgersOrdered Example.created.
Proof.
  assert (ledgersOrdered Example.empty) as H.
  { intros doc Hdoc. simpl in Hdoc. by apply elem_of_nil in Hdoc. }
  split; [exact H|].
  exact (mutations_keep_ledgers_in_order (Example.at_time 1) Example.alice
           (Create Example.runbook) Example.empty H).
Defined.

Lemma history_of_an_ordered_ledger_is_its_reverse_witness :
  getDocumentVersions 1 (Some 0%Z) (Some 10%Z) Example.created
  = Sent {| VersionsPage.versions :=
              take 10 (drop 0 (reverse (Document.versions Scenario.stored)));
            VersionsPage.total := 1;
            VersionsPage.hasMore := false |}.
Proof.
  apply (history_of_an_ordered_ledger_is_its_reverse 1 Example.created
           Scenario.stored 0 10).
  - vm_compute. reflexivity.
  - split; repeat constructor. simpl. lia.
Defined.
